(** * ts-deno-mcp-poc: session routing of src/main.ts

    A shallow embedding of the Express application of [src/main.ts]: the
    session map [transports.streamable], the session bootstrap
    [setupSession] with the two callbacks it installs on every transport
    ([onsessioninitialized], [onclose]), the POST handler of [/mcp], the
    GET/DELETE handler [handleSessionRequest], and the two echo handlers.

    The MCP SDK ([StreamableHTTPServerTransport], [McpServer],
    [isInitializeRequest]), [crypto.randomUUID] and the URL parser are
    libraries the program calls. What they decide on their own is an
    interface (record [Sdk]); what they do with the program's objects is
    written out: a transport runs the callbacks it was given, a response is
    written once, [server.close] closes the server's transport, a plain
    object inherits the members of [Object.prototype]. *)

From Stdlib Require Import ZArith Ascii String.
From stdpp Require Import base option list gmap strings pretty.

Local Open Scope string_scope.

(** ** JSON values ([req.body], the synthesized handshake) *)

#[warnings="-register-all"]
Inductive JSON : Type :=
| JNull
| JBool (b : bool)
| JNum (n : Z)
| JStr (s : string)
| JArr (items : list JSON)
| JObj (fields : list (string * JSON)).

(** [o[k]] on a JSON object; [None] is JavaScript's [undefined]. *)
Fixpoint assoc (k : string) (fields : list (string * JSON)) : option JSON :=
  match fields with
  | [] => None
  | (k', v) :: rest => if String.eqb k k' then Some v else assoc k rest
  end.

Definition field (k : string) (j : JSON) : option JSON :=
  match j with
  | JObj fields => assoc k fields
  | _ => None
  end.

(** [j[k1][k2]...] *)
Fixpoint path (keys : list string) (j : JSON) : option JSON :=
  match keys with
  | [] => Some j
  | k :: rest =>
      match field k j with
      | Some v => path rest v
      | None => None
      end
  end.

(** ** HTTP requests *)

Inductive Method : Type := POST | GET | DELETE | OtherMethod.

Record Request : Type := {
  method : Method;
  headers : gmap string string;
  body : JSON
}.

(** [req.headers["mcp-session-id"] as string | undefined] *)
Definition session_header (req : Request) : option string :=
  headers req !! "mcp-session-id".

(** JavaScript truthiness of a [string | undefined]: [undefined] and the
    empty string are falsy. *)
Definition truthy (v : option string) : bool :=
  match v with
  | Some s => negb (String.eqb s "")
  | None => false
  end.

Arguments truthy : simpl never.

(** [const proper404Client = Boolean(process.env.PROPER_404_CLIENT) || false] *)
Definition proper404Client (PROPER_404_CLIENT : option string) : bool :=
  truthy PROPER_404_CLIENT || false.

(** ** The objects of the program *)

(** Transports are heap objects; a [TransportRef] is the identity of one
    ([transports.streamable] stores references, not copies). *)
Abbreviation TransportRef := nat (only parsing).

(** What the program can see of one [StreamableHTTPServerTransport]:
    [captured] is the parameter [sessionId] of the [setupSession] call that
    built it, closed over by its [sessionIdGenerator]; [t_sessionId] is the
    property [transport.sessionId], unset until the transport initializes. *)
Record Transport : Type := {
  captured : option string;
  t_sessionId : option string
}.

(** The single [server = new McpServer(...)]: the transports passed to
    [server.connect] so far, and the transport the server holds, which is
    the last one connected until the server is closed. *)
Record Server : Type := {
  connected : list TransportRef;
  current : option TransportRef
}.

(** The response object [res] of a request, as a transport finds it when
    it is handed the request. *)
Inductive Response : Type := Fresh | Written.

(** What the program does to the outside, in order. *)
Inductive Event : Type :=
| Send (status : nat) (text : string)
| HandleRequest (t : TransportRef) (req : Request) (parsedBody : option JSON).

(** The state of the process. [streamable] holds the own properties of
    the object [transports.streamable], the transports by session
    identifier ([transports.sse] is never read or written). [heap] holds
    the transports created so far, [uuid_calls] counts the calls of
    [crypto.randomUUID], and [trace] lists what the handlers did to the
    responses and the transports. *)
Record State : Type := {
  streamable : gmap string TransportRef;
  heap : list Transport;
  server : Server;
  uuid_calls : nat;
  trace : list Event
}.

Definition initial : State :=
  {| streamable := ∅; heap := []; server := {| connected := []; current := None |};
     uuid_calls := 0; trace := [] |}.

Definition set_streamable (f : gmap string TransportRef → gmap string TransportRef)
    (s : State) : State :=
  {| streamable := f (streamable s); heap := heap s; server := server s;
     uuid_calls := uuid_calls s; trace := trace s |}.

Definition set_heap (f : list Transport → list Transport) (s : State) : State :=
  {| streamable := streamable s; heap := f (heap s); server := server s;
     uuid_calls := uuid_calls s; trace := trace s |}.

Definition set_server (f : Server → Server) (s : State) : State :=
  {| streamable := streamable s; heap := heap s; server := f (server s);
     uuid_calls := uuid_calls s; trace := trace s |}.

Definition emit (e : Event) (s : State) : State :=
  {| streamable := streamable s; heap := heap s; server := server s;
     uuid_calls := uuid_calls s; trace := (trace s ++ [e])%list |}.

(** ** The libraries the program calls *)

(** What a transport does with the program's callbacks while it handles
    one request. *)
Inductive Reaction : Type :=
| Initializes   (* runs sessionIdGenerator, sets sessionId, calls onsessioninitialized *)
| Closes        (* calls onclose *)
| Quiet.        (* calls neither *)

Record Sdk : Type := {
  (** [isInitializeRequest] of sdk/types.js *)
  isInitializeRequest : JSON → bool;
  (** the n-th call of [crypto.randomUUID()] *)
  randomUUID : nat → string;
  (** whether [server.connect(transport)] resolves (it throws otherwise) *)
  connect_ok : Server → bool;
  (** [transport.handleRequest(req, res, parsedBody)] on a fresh [res] *)
  reaction : Transport → Request → option JSON → Reaction;
  (** [new URL(uri).href]; [None] when the parser throws *)
  url_href : string → option string
}.

(** ** Property lookup on a plain object *)

(** The members every object created by [{}] inherits from
    [Object.prototype]. *)
Definition Object_prototype : list string :=
  [ "constructor"; "hasOwnProperty"; "isPrototypeOf"; "propertyIsEnumerable";
    "toLocaleString"; "toString"; "valueOf"; "__proto__";
    "__defineGetter__"; "__defineSetter__"; "__lookupGetter__"; "__lookupSetter__" ].

Definition inherited (key : string) : bool :=
  bool_decide (key ∈ Object_prototype).

(** The value of [transports.streamable[key]]: a transport stored under
    the key, a member of [Object.prototype] (a function or an object, never
    a transport), or [undefined]. *)
Inductive Member : Type :=
| Own (t : TransportRef)
| Inherited
| Undefined.

(** JavaScript truthiness of such a value. *)
Definition defined (v : Member) : bool :=
  match v with
  | Undefined => false
  | _ => true
  end.

(** ** Computations: state, and exceptions that keep the state *)

Inductive Result (A : Type) : Type :=
| Ok (a : A) (s : State)
| Thrown (s : State).
Arguments Ok {A} a s.
Arguments Thrown {A} s.

Definition M (A : Type) : Type := State → Result A.

Definition ret {A} (a : A) : M A := fun s => Ok a s.
Definition bind {A B} (m : M A) (k : A → M B) : M B :=
  fun s => match m s with
           | Ok a s' => k a s'
           | Thrown s' => Thrown s'
           end.
Definition throw {A} : M A := fun s => Thrown s.
Definition gets {A} (f : State → A) : M A := fun s => Ok (f s) s.
Definition modify (f : State → State) : M unit := fun s => Ok tt (f s).

Notation "'let!' x ':=' m 'in' k" := (bind m (fun x => k))
  (at level 10, x name, m at level 100, k at level 200).
Notation "m ';;!' k" := (bind m (fun _ => k))
  (at level 100, k at level 200, right associativity).

Definition final {A} (r : Result A) : State :=
  match r with Ok _ s => s | Thrown s => s end.

(** ** The capability handlers *)

Record ToolContent : Type := { type : string; text : string }.
Record ToolResult : Type := { content : list ToolContent }.
Record ResourceContent : Type := { uri : string; rtext : string }.
Record ResourceResult : Type := { contents : list ResourceContent }.

(** [async ({ message }) => ({ content: [{ type: "text", text: `Tool echo: ${message}` }] })] *)
Definition echoTool (message : string) : ToolResult :=
  {| content := [ {| type := "text"; text := "Tool echo: " +:+ message |} ] |}.

(** [async (uri, { message }) => ({ contents: [{ uri: uri.href, text: `Resource echo: ${message}` }] })] *)
Definition echoResource (href : string) (message : string) : ResourceResult :=
  {| contents := [ {| uri := href; rtext := "Resource echo: " +:+ message |} ] |}.

(** [server.registerTool("echo", { inputSchema: { message: z.string() } }, ...)]:
    the tools by name; the input must carry a string [message]. *)
Definition registeredTools : list (string * (JSON → option ToolResult)) :=
  [ ("echo", fun input => match field "message" input with
                          | Some (JStr message) => Some (echoTool message)
                          | _ => None
                          end) ].

Definition callTool (name : string) (input : JSON) : option ToolResult :=
  match list_find (fun e => bool_decide (e.1 = name)) registeredTools with
  | Some (_, (_, handler)) => handler input
  | None => None
  end.






(** ** The synthesized handshake of the POST handler *)

Definition synthesizedInitialize : JSON :=
  JArr [ JObj [
    ("jsonrpc", JStr "2.0");
    ("id", JNum 1);
    ("method", JStr "initialize");
    ("params", JObj [
      ("protocolVersion", JStr "2024-11-05");
      ("capabilities", JObj [
        ("roots", JObj [ ("listChanged", JBool true) ]);
        ("sampling", JObj []);
        ("elicitation", JObj []) ]);
      ("clientInfo", JObj [
        ("name", JStr "ExampleClient");
        ("title", JStr "Example Client Display Name");
        ("version", JStr "1.0.0") ]) ]) ] ].

(** ** The program *)

Section Program.

Context (sdk : Sdk).
(** [process.env.PROPER_404_CLIENT] *)
Context (PROPER_404_CLIENT : option string).

(** [sessionIdGenerator: () => sessionId || crypto.randomUUID()] of the
    transport [t]. *)
Definition sessionIdGenerator (t : TransportRef) : M string :=
  fun s =>
    match heap s !! t with
    | Some tr =>
        if truthy (captured tr) then Ok (default "" (captured tr)) s
        else Ok (randomUUID sdk (uuid_calls s))
                {| streamable := streamable s; heap := heap s; server := server s;
                   uuid_calls := S (uuid_calls s); trace := trace s |}
    | None => Thrown s
    end.

(** [onsessioninitialized: (sessionId) => { transports.streamable[sessionId] = transport; }] *)
Definition onsessioninitialized (t : TransportRef) (sessionId : string) : M unit :=
  modify (set_streamable (fun m => <[sessionId := t]> m)).

(** [if (transport.sessionId) { delete transports.streamable[transport.sessionId]; }]
    of the close callback of the transport [t]. *)
Definition unregister (t : TransportRef) : M unit :=
  let! tr := gets (fun s => heap s !! t) in
  match tr with
  | Some tr =>
      if truthy (t_sessionId tr)
      then modify (set_streamable (fun m => delete (default "" (t_sessionId tr)) m))
      else ret tt
  | None => throw
  end.

(** [server.close()], not awaited. The server closes the transport it
    holds, and that transport fires its close event: the program's close
    callback of that transport runs, and its own [server.close()] finds the
    same transport again, so the callback runs over and over, deleting the
    same entry, until the stack overflows; the server then lets go of the
    transport. A server that holds no transport has nothing to close. *)
Definition server_close : M unit :=
  let! held := gets (fun s => current (server s)) in
  match held with
  | Some c =>
      unregister c ;;!
      modify (set_server (fun sv => {| connected := connected sv; current := None |}))
  | None => ret tt
  end.

(** [transport.onclose = () => { if (transport.sessionId) { delete
    transports.streamable[transport.sessionId]; } server.close(); }] *)
Definition onclose (t : TransportRef) : M unit :=
  unregister t ;;! server_close.

(** [await server.connect(transport)]: the server holds [transport] from
    now on. *)
Definition server_connect (t : TransportRef) : M unit :=
  fun s =>
    if connect_ok sdk (server s)
    then Ok tt (set_server (fun sv =>
           {| connected := (connected sv ++ [t])%list; current := Some t |}) s)
    else Thrown s.

(** [const setupSession = async (sessionId) => { const transport = new
    StreamableHTTPServerTransport({...}); transport.onclose = ...;
    await server.connect(transport); return transport; }] *)
Definition setupSession (sessionId : option string) : M TransportRef :=
  let! t := gets (fun s => length (heap s)) in
  modify (set_heap (fun h => (h ++ [ {| captured := sessionId; t_sessionId := None |} ])%list)) ;;!
  server_connect t ;;!
  ret t.

(** The transport initializes: it asks its generator for the identifier,
    stores it in [transport.sessionId] and, when the identifier is
    truthy, calls [onsessioninitialized] with it. *)
Definition initialize (t : TransportRef) : M unit :=
  let! sid := sessionIdGenerator t in
  modify (set_heap (fun h =>
    alter (fun tr => {| captured := captured tr; t_sessionId := Some sid |}) t h)) ;;!
  if truthy (Some sid) then onsessioninitialized t sid else ret tt.

(** [await transport.handleRequest(req, res, parsedBody)]. On a response
    that has been written already the transport cannot answer and the call
    rejects, without running a callback; on a fresh one the transport may
    initialize or close. *)
Definition handleRequest (t : TransportRef) (req : Request) (res : Response)
    (parsedBody : option JSON) : M unit :=
  modify (emit (HandleRequest t req parsedBody)) ;;!
  match res with
  | Written => throw
  | Fresh =>
      let! tr := gets (fun s => heap s !! t) in
      match tr with
      | Some tr =>
          match reaction sdk tr req parsedBody with
          | Initializes => initialize t
          | Closes => onclose t
          | Quiet => ret tt
          end
      | None => throw
      end
  end.

(** [res.status(code).send(text)] *)
Definition send (code : nat) (text : string) : M unit :=
  modify (emit (Send code text)).

(** [transports.streamable[sessionId]], read only where [sessionId] is
    truthy: the transport stored under the identifier, else the member of
    [Object.prototype] of that name, else [undefined]. *)
Definition lookup_transport (sessionId : option string) (s : State) : Member :=
  match sessionId with
  | Some sid =>
      match streamable s !! sid with
      | Some t => Own t
      | None => if inherited sid then Inherited else Undefined
      end
  | None => Undefined
  end.

(** [app.post("/mcp", async (req, res) => {...})]. In the first branch a
    member of [Object.prototype] found under the identifier is taken for
    the transport, and the call of its [handleRequest] at the end of the
    handler throws a [TypeError]. In the last branch the response handed
    over with the request body is the one the synthesized handshake was
    answered on. *)
Definition post (req : Request) : M unit :=
  let sessionId := session_header req in
  let! found := gets (lookup_transport sessionId) in
  if truthy sessionId && defined found then
    match found with
    | Own transport => handleRequest transport req Fresh (Some (body req))
    | _ => throw
    end
  else if truthy sessionId && negb (defined found)
          && proper404Client PROPER_404_CLIENT then
    send 404 ("sessionId " +:+ default "" sessionId +:+ " not found")
  else if isInitializeRequest sdk (body req) then
    let! transport := setupSession sessionId in
    handleRequest transport req Fresh (Some (body req))
  else
    let! transport := setupSession sessionId in
    handleRequest transport req Fresh (Some synthesizedInitialize) ;;!
    handleRequest transport req Written (Some (body req)).

(** [const handleSessionRequest = async (req, res) => {...}]; as in
    [post], a member of [Object.prototype] passes the test and the call of
    its [handleRequest] throws. *)
Definition handleSessionRequest (req : Request) : M unit :=
  let sessionId := session_header req in
  let! found := gets (lookup_transport sessionId) in
  if negb (truthy sessionId) || negb (defined found) then
    send 404 "Invalid or missing session ID"
  else
    match found with
    | Own transport => handleRequest transport req Fresh None
    | _ => throw
    end.

(** [app.post("/mcp", ...)], [app.get("/mcp", handleSessionRequest)],
    [app.delete("/mcp", handleSessionRequest)]: the routes of [/mcp]. *)
Definition app (req : Request) : M unit :=
  match method req with
  | POST => post req
  | GET | DELETE => handleSessionRequest req
  | OtherMethod => ret tt
  end.


End Program.

(** ** The states of the server and what holds in them *)

Section Reachability.

Context (sdk : Sdk) (PROPER_404_CLIENT : option string).

(** The two last branches of [app.post]: a new session, with the
    synthesized handshake unless the payload is itself one. *)
Definition bootstrap (req : Request) : M unit :=
  let! transport := setupSession sdk (session_header req) in
  if isInitializeRequest sdk (body req)
  then handleRequest sdk transport req Fresh (Some (body req))
  else (handleRequest sdk transport req Fresh (Some synthesizedInitialize) ;;!
        handleRequest sdk transport req Written (Some (body req))).

(** The payloads [bootstrap] hands to the transport it creates. *)
Definition delivered (t : TransportRef) (req : Request) : list Event :=
  if isInitializeRequest sdk (body req)
  then [HandleRequest t req (Some (body req))]
  else [HandleRequest t req (Some synthesizedInitialize);
        HandleRequest t req (Some (body req))].

(** Where a new transport [t] of request [req] stands with respect to the
    session map [m] it was created in: connected, and either not in the map at
    all, or registered by its own initialization under its [sessionId]. *)
Definition settled (m : gmap string TransportRef) (t : TransportRef) (req : Request)
    (s' : State) : Prop :=
  t ∈ connected (server s')
  ∧ ∃ tr, heap s' !! t = Some tr ∧ captured tr = session_header req
    ∧ (streamable s' = m
       ∨ ∃ sid b, sid ≠ "" ∧ streamable s' = <[sid := t]> m
           ∧ t_sessionId tr = Some sid
           ∧ reaction sdk {| captured := session_header req; t_sessionId := None |} req b
             = Initializes).

(** The states the server goes through: it starts with an empty map,
    serves requests, and transports fire their close event. *)
Inductive reachable : State → Prop :=
| reach_initial : reachable initial
| reach_request s req :
    reachable s → reachable (final (app sdk PROPER_404_CLIENT req s))
| reach_close s t :
    reachable s → t < length (heap s) → reachable (final (onclose t s)).

End Reachability.

(** The identifier a transport's generator returns in state [s]. *)
Definition generated (sdk : Sdk) (sessionId : option string) (s : State) : string :=
  if truthy sessionId then default "" sessionId else randomUUID sdk (uuid_calls s).

(** What the transports may be relied on for: a transport that has a
    session identifier does not initialize again, and only a DELETE makes a
    transport close. *)
Record sdk_contract (sdk : Sdk) : Prop := {
  init_once : ∀ tr req b, reaction sdk tr req b = Initializes → t_sessionId tr = None;
  close_on_delete : ∀ tr req b, reaction sdk tr req b = Closes → method req = DELETE
}.

(** Every key of the session map is a truthy string, every transport in
    it went through [server.connect], and the transports the server knows
    exist. *)
Record consistent (s : State) : Prop := {
  keys_truthy : streamable s !! "" = None;
  keys_connected : ∀ id t, streamable s !! id = Some t → t ∈ connected (server s);
  held_connected : ∀ c, current (server s) = Some c → c ∈ connected (server s);
  connected_allocated : ∀ t, t ∈ connected (server s) → t < length (heap s)
}.

(** The session map without the entry of a transport's [sessionId]. *)
Definition unregistered (tr : Transport) (m : gmap string TransportRef)
    : gmap string TransportRef :=
  if truthy (t_sessionId tr) then delete (default "" (t_sessionId tr)) m else m.

(** The session map after the close callback of a transport [tr] ran in
    state [s]: without the entry of [tr] and without the entry of the
    transport the server held. *)
Definition closed_map (s : State) (tr : Transport) : gmap string TransportRef :=
  match current (server s) with
  | Some c =>
      match heap s !! c with
      | Some held => unregistered held (unregistered tr (streamable s))
      | None => unregistered tr (streamable s)
      end
  | None => unregistered tr (streamable s)
  end.

(** Every entry of the session map is keyed by the [sessionId] of the
    transport it holds. *)
Definition bound (s : State) : Prop :=
  ∀ id t, streamable s !! id = Some t →
    ∃ tr, heap s !! t = Some tr ∧ t_sessionId tr = Some id.

(** ** A reference instance of the libraries

    The documented behaviour of the SDK, used to run the program on
    concrete requests: a transport initializes on a POST that carries one
    initialize request while it has no session yet, it closes on a DELETE
    addressed to its session, and otherwise calls nothing back. *)

Module Reference.

Definition is_string (j : option JSON) : bool :=
  match j with Some (JStr _) => true | _ => false end.

Definition is_object (j : option JSON) : bool :=
  match j with Some (JObj _) => true | _ => false end.

(** The shape [InitializeRequestSchema] accepts. *)
Definition isInitializeRequest (j : JSON) : bool :=
  match field "method" j, field "params" j with
  | Some (JStr m), Some params =>
      String.eqb m "initialize"
      && is_string (field "protocolVersion" params)
      && is_object (field "capabilities" params)
      && match field "clientInfo" params with
         | Some info => is_string (field "name" info) && is_string (field "version" info)
         | None => false
         end
  | _, _ => false
  end.

Definition messages (parsedBody : option JSON) : list JSON :=
  match parsedBody with
  | Some (JArr items) => items
  | Some j => [j]
  | None => []
  end.

Definition reaction (tr : Transport) (req : Request) (parsedBody : option JSON)
    : Reaction :=
  match method req with
  | POST =>
      if existsb isInitializeRequest (messages parsedBody)
         && bool_decide (t_sessionId tr = None)
         && bool_decide (length (messages parsedBody) = 1)
      then Initializes else Quiet
  | DELETE =>
      if bool_decide (is_Some (t_sessionId tr))
         && bool_decide (session_header req = t_sessionId tr)
      then Closes else Quiet
  | _ => Quiet
  end.

Definition randomUUID (n : nat) : string :=
  "00000000-0000-4000-8000-" +:+ pretty n.

(** The URIs of the examples are in the form the URL parser prints. *)
Definition url_href (uri : string) : option string := Some uri.

Definition sdk : Sdk :=
  Build_Sdk isInitializeRequest randomUUID (fun _ => true) reaction url_href.

(** A client's own handshake, and an ordinary call. *)
Definition initializeBody : JSON :=
  JObj [ ("jsonrpc", JStr "2.0"); ("id", JNum 0); ("method", JStr "initialize");
         ("params", JObj [ ("protocolVersion", JStr "2025-06-18");
                           ("capabilities", JObj []);
                           ("clientInfo", JObj [ ("name", JStr "client");
                                                 ("version", JStr "0.0.1") ]) ]) ].

Definition listToolsBody : JSON :=
  JObj [ ("jsonrpc", JStr "2.0"); ("id", JNum 2); ("method", JStr "tools/list") ].

Definition request (m : Method) (sessionId : option string) (b : JSON) : Request :=
  {| method := m;
     headers := match sessionId with
                | Some sid => {[ "mcp-session-id" := sid ]}
                | None => ∅
                end;
     body := b |}.

(** [PROPER_404_CLIENT=1]: strict-client mode. *)
Definition strictEnv : option string := Some "1".

(** The server after one client opened the session ["abc"]. *)
Definition oneSession : State :=
  final (app sdk None (request POST (Some "abc") initializeBody) initial).

(** The server after the sessions ["abc"] and ["xyz"] were opened. *)
Definition twoSessions : State :=
  final (app sdk None (request POST (Some "xyz") initializeBody) oneSession).

(** The session ["abc"] opened, terminated by a DELETE, and opened again:
    the map holds a second transport under the same identifier. *)
Definition recreated : State :=
  final (app sdk None (request POST (Some "abc") initializeBody)
    (final (app sdk None (request DELETE (Some "abc") JNull) oneSession))).


(** Three sessions; the server holds the transport of the last one. *)
Definition threeSessions : State :=
  final (app sdk None (request POST (Some "uvw") initializeBody) twoSessions).


End Reference.

(** ** Running the operations *)

Ltac run :=
  unfold bind, gets, modify, ret, throw, send in *.

Lemma truthy_Some (sid : string) : truthy (Some sid) = true ↔ sid ≠ "".
Proof.
  unfold truthy. destruct (String.eqb_spec sid ""); simpl; split; congruence.
Qed.

Lemma truthy_inv (v : option string) :
  truthy v = true → ∃ sid, v = Some sid ∧ sid ≠ "".
Proof.
  destruct v as [sid|]; [|discriminate].
  intros H. exists sid. split; [done|]. by apply truthy_Some.
Qed.

Lemma generated_supplied sdk sid s : sid ≠ "" → generated sdk (Some sid) s = sid.
Proof.
  intros H. unfold generated. apply truthy_Some in H. by rewrite H.
Qed.

Lemma inherited_truthy (key : string) : inherited key = true → key ≠ "".
Proof. intros H ->. vm_compute in H. discriminate. Qed.

Lemma unregistered_Some (tr : Transport) (m : gmap string TransportRef) k x :
  unregistered tr m !! k = Some x → m !! k = Some x.
Proof.
  unfold unregistered. destruct (truthy (t_sessionId tr)); [|done].
  intros H. by apply lookup_delete_Some in H as [_ ?].
Qed.

Lemma unregistered_None (tr : Transport) (m : gmap string TransportRef) k :
  m !! k = None → unregistered tr m !! k = None.
Proof.
  intros H. destruct (unregistered tr m !! k) as [x|] eqn:E; [|done].
  apply unregistered_Some in E. congruence.
Qed.

Lemma unregistered_own (tr : Transport) (m : gmap string TransportRef) sid :
  t_sessionId tr = Some sid → sid ≠ "" → unregistered tr m = delete sid m.
Proof.
  intros Hsid Hne. unfold unregistered. rewrite Hsid.
  apply truthy_Some in Hne. by rewrite Hne.
Qed.

Lemma unregistered_idemp (tr : Transport) (m : gmap string TransportRef) :
  unregistered tr (unregistered tr m) = unregistered tr m.
Proof.
  unfold unregistered. destruct (truthy (t_sessionId tr)); [|done].
  apply delete_delete_eq.
Qed.

Lemma unregistered_comm (tr1 tr2 : Transport) (m : gmap string TransportRef) :
  unregistered tr1 (unregistered tr2 m) = unregistered tr2 (unregistered tr1 m).
Proof.
  unfold unregistered.
  destruct (truthy (t_sessionId tr1)), (truthy (t_sessionId tr2)); try done.
  apply delete_delete.
Qed.

Lemma closed_map_Some (s : State) (tr : Transport) k x :
  closed_map s tr !! k = Some x → streamable s !! k = Some x.
Proof.
  unfold closed_map. destruct (current (server s)) as [c|]; [destruct (heap s !! c)|];
    intros H; repeat apply unregistered_Some in H; done.
Qed.

Section Execution.

Context (sdk : Sdk).

Lemma unregister_run s t tr :
  heap s !! t = Some tr →
  ∃ s', unregister t s = Ok tt s'
    ∧ streamable s' = unregistered tr (streamable s)
    ∧ heap s' = heap s
    ∧ server s' = server s
    ∧ uuid_calls s' = uuid_calls s
    ∧ trace s' = trace s.
Proof.
  intros Ht. unfold unregister, unregistered. run. rewrite Ht.
  destruct (truthy (t_sessionId tr)); eexists; (split; [reflexivity|]); simpl; done.
Qed.

(** Whatever the state, the close callback only deletes entries and only
    lets the server go of its transport. *)
Lemma onclose_frame s t :
  heap (final (onclose t s)) = heap s
  ∧ connected (server (final (onclose t s))) = connected (server s)
  ∧ uuid_calls (final (onclose t s)) = uuid_calls s
  ∧ trace (final (onclose t s)) = trace s
  ∧ (∀ k x, streamable (final (onclose t s)) !! k = Some x → streamable s !! k = Some x)
  ∧ (current (server (final (onclose t s))) = None
     ∨ current (server (final (onclose t s))) = current (server s)).
Proof.
  assert (∃ s1, final (onclose t s) = s1
            ∧ heap s1 = heap s ∧ connected (server s1) = connected (server s)
            ∧ uuid_calls s1 = uuid_calls s ∧ trace s1 = trace s
            ∧ (∀ k x, streamable s1 !! k = Some x → streamable s !! k = Some x)
            ∧ (current (server s1) = None ∨ current (server s1) = current (server s)))
    as (s1 & -> & H); [|exact H].
  unfold onclose, bind.
  destruct (heap s !! t) as [tr|] eqn:Ht.
  - destruct (unregister_run s t tr Ht) as (s1 & E1 & Hm1 & Hh1 & Hs1 & Hu1 & Ht1).
    rewrite E1. unfold server_close, bind, gets. rewrite Hs1.
    destruct (current (server s)) as [c|] eqn:Hc.
    + destruct (heap s1 !! c) as [held|] eqn:Hheld.
      * destruct (unregister_run s1 c held Hheld) as (s2 & E2 & Hm2 & Hh2 & Hs2 & Hu2 & Ht2).
        rewrite E2. unfold modify. eexists. split; [reflexivity|]. simpl.
        rewrite Hs2, Hs1, Hh2, Hh1, Hu2, Hu1, Ht2, Ht1.
        repeat (split; [done|]). split; [|by left].
        intros k x H. rewrite Hm2, Hm1 in H. by repeat apply unregistered_Some in H.
      * unfold unregister at 1. run. rewrite Hheld. eexists. split; [reflexivity|]. simpl.
        rewrite Hs1, Hh1, Hu1, Ht1, Hc.
        repeat (split; [done|]). split; [|by right].
        intros k x H. rewrite Hm1 in H. by apply unregistered_Some in H.
    + unfold ret. eexists. split; [reflexivity|]. simpl. rewrite Hs1, Hh1, Hu1, Ht1, Hc.
      repeat (split; [done|]). split; [|by left].
      intros k x H. rewrite Hm1 in H. by apply unregistered_Some in H.
  - unfold unregister. run. rewrite Ht. eexists. split; [reflexivity|]. simpl.
    repeat (split; [done|]). by right.
Qed.

(** In a state where the transport and the one the server holds exist, the
    close callback returns. *)
Lemma onclose_run s t tr :
  heap s !! t = Some tr →
  (∀ c, current (server s) = Some c → is_Some (heap s !! c)) →
  ∃ s', onclose t s = Ok tt s'
    ∧ streamable s' = closed_map s tr
    ∧ heap s' = heap s
    ∧ connected (server s') = connected (server s)
    ∧ current (server s') = None
    ∧ uuid_calls s' = uuid_calls s
    ∧ trace s' = trace s.
Proof.
  intros Ht Hheld. unfold onclose, bind, closed_map.
  destruct (unregister_run s t tr Ht) as (s1 & E1 & Hm1 & Hh1 & Hs1 & Hu1 & Ht1).
  rewrite E1. unfold server_close, bind, gets. rewrite Hs1.
  destruct (current (server s)) as [c|] eqn:Hc.
  - destruct (Hheld c eq_refl) as [held Hc'].
    assert (heap s1 !! c = Some held) as Hc1 by (by rewrite Hh1).
    destruct (unregister_run s1 c held Hc1) as (s2 & E2 & Hm2 & Hh2 & Hs2 & Hu2 & Ht2).
    rewrite E2, Hc'. unfold modify. eexists. split; [reflexivity|]. simpl.
    rewrite Hm2, Hm1, Hh2, Hh1, Hs2, Hs1, Hu2, Hu1, Ht2, Ht1. done.
  - unfold ret. exists s1. rewrite Hs1, Hc. done.
Qed.

Lemma initialize_run s t tr :
  heap s !! t = Some tr →
  let sid := generated sdk (captured tr) s in
  ∃ s', initialize sdk t s = Ok tt s'
    ∧ streamable s' = (if truthy (Some sid) then <[sid := t]> (streamable s)
                       else streamable s)
    ∧ heap s' = alter (fun tr => {| captured := captured tr; t_sessionId := Some sid |})
                      t (heap s)
    ∧ server s' = server s
    ∧ uuid_calls s' = (if truthy (captured tr) then uuid_calls s else S (uuid_calls s))
    ∧ trace s' = trace s.
Proof.
  intros Ht sid. subst sid. unfold initialize, sessionIdGenerator, onsessioninitialized, generated.
  run. rewrite Ht.
  destruct (truthy (captured tr)) eqn:Hc.
  - destruct (truthy (Some (default "" (captured tr))));
      eexists; (split; [reflexivity|]); simpl; done.
  - destruct (truthy (Some (randomUUID sdk (uuid_calls s))));
      eexists; (split; [reflexivity|]); simpl; done.
Qed.

Lemma setupSession_run s sessionId :
  let t := length (heap s) in
  let fresh := {| captured := sessionId; t_sessionId := None |} in
  ∃ s', setupSession sdk sessionId s
          = (if connect_ok sdk (server s) then Ok t s' else Thrown s')
    ∧ streamable s' = streamable s
    ∧ heap s' = (heap s ++ [fresh])%list
    ∧ connected (server s') = (if connect_ok sdk (server s)
                               then (connected (server s) ++ [t])%list
                               else connected (server s))
    ∧ current (server s') = (if connect_ok sdk (server s) then Some t
                             else current (server s))
    ∧ uuid_calls s' = uuid_calls s
    ∧ trace s' = trace s.
Proof.
  intros t fresh. unfold setupSession, server_connect. run. simpl.
  destruct (connect_ok sdk (server s)); eexists; (split; [reflexivity|]); simpl; done.
Qed.

Lemma handleRequest_run s t tr req b :
  heap s !! t = Some tr →
  handleRequest sdk t req Fresh b s
  = match reaction sdk tr req b with
    | Initializes => initialize sdk t (emit (HandleRequest t req b) s)
    | Closes => onclose t (emit (HandleRequest t req b) s)
    | Quiet => Ok tt (emit (HandleRequest t req b) s)
    end.
Proof.
  intros Ht. unfold handleRequest. run. simpl. rewrite Ht.
  by destruct (reaction sdk tr req b).
Qed.

(** A response that was written makes the call reject. *)
Lemma handleRequest_written s t req b :
  handleRequest sdk t req Written b s = Thrown (emit (HandleRequest t req b) s).
Proof. reflexivity. Qed.

Lemma handleRequest_trace s t req res b :
  trace (final (handleRequest sdk t req res b s)) = (trace s ++ [HandleRequest t req b])%list.
Proof.
  destruct res; [|done].
  destruct (heap s !! t) as [tr|] eqn:Ht.
  - rewrite (handleRequest_run _ _ _ _ _ Ht).
    destruct (reaction sdk tr req b).
    + destruct (initialize_run (emit (HandleRequest t req b) s) t tr Ht)
        as (s' & E & _ & _ & _ & _ & Etr). rewrite E. simpl. by rewrite Etr.
    + destruct (onclose_frame (emit (HandleRequest t req b) s) t)
        as (_ & _ & _ & Etr & _). by rewrite Etr.
    + done.
  - unfold handleRequest. run. simpl. by rewrite Ht.
Qed.

End Execution.

(** ** The branches of the handlers *)

Section Branches.

Context (sdk : Sdk) (PROPER_404_CLIENT : option string).

Lemma lookup_own s sid t :
  streamable s !! sid = Some t → lookup_transport (Some sid) s = Own t.
Proof. intros H. unfold lookup_transport. by rewrite H. Qed.

Lemma lookup_inherited s sid :
  streamable s !! sid = None → inherited sid = true →
  lookup_transport (Some sid) s = Inherited.
Proof. intros H Hi. unfold lookup_transport. by rewrite H, Hi. Qed.

Lemma lookup_undefined s sid :
  streamable s !! sid = None → inherited sid = false →
  lookup_transport (Some sid) s = Undefined.
Proof. intros H Hi. unfold lookup_transport. by rewrite H, Hi. Qed.

Lemma post_reuse s req sid t :
  session_header req = Some sid → streamable s !! sid = Some t → sid ≠ "" →
  post sdk PROPER_404_CLIENT req s = handleRequest sdk t req Fresh (Some (body req)) s.
Proof.
  intros Hh Hl Hne. apply truthy_Some in Hne.
  unfold post. run. rewrite Hh, (lookup_own s sid t Hl), Hne. done.
Qed.

(** An identifier that names a member of [Object.prototype] and has no
    entry: the member is taken for a transport and the handler throws. *)
Lemma post_inherited s req sid :
  session_header req = Some sid → streamable s !! sid = None → inherited sid = true →
  post sdk PROPER_404_CLIENT req s = Thrown s.
Proof.
  intros Hh Hl Hi. pose proof (inherited_truthy sid Hi) as Hne. apply truthy_Some in Hne.
  unfold post. run. rewrite Hh, (lookup_inherited s sid Hl Hi), Hne. done.
Qed.

Lemma post_reject s req sid :
  session_header req = Some sid → streamable s !! sid = None → inherited sid = false →
  sid ≠ "" → proper404Client PROPER_404_CLIENT = true →
  post sdk PROPER_404_CLIENT req s
  = Ok tt (emit (Send 404 ("sessionId " +:+ sid +:+ " not found")) s).
Proof.
  intros Hh Hl Hi Hne Hstrict. apply truthy_Some in Hne.
  unfold post. run. rewrite Hh, (lookup_undefined s sid Hl Hi), Hne, Hstrict. done.
Qed.

Lemma post_bootstrap_absent s req :
  truthy (session_header req) = false →
  post sdk PROPER_404_CLIENT req s = bootstrap sdk req s.
Proof.
  intros Hf. unfold post, bootstrap. run. rewrite Hf. simpl.
  by destruct (isInitializeRequest sdk (body req)).
Qed.

Lemma post_bootstrap_lenient s req :
  lookup_transport (session_header req) s = Undefined →
  proper404Client PROPER_404_CLIENT = false →
  post sdk PROPER_404_CLIENT req s = bootstrap sdk req s.
Proof.
  intros Hl Hlen. unfold post, bootstrap. run. rewrite Hl, Hlen. simpl.
  rewrite !andb_false_r.
  by destruct (isInitializeRequest sdk (body req)).
Qed.

(** The branch a POST takes, with the test that selects it. *)
Lemma post_branches s req :
  (∃ sid t, session_header req = Some sid ∧ sid ≠ "" ∧ streamable s !! sid = Some t
      ∧ post sdk PROPER_404_CLIENT req s
        = handleRequest sdk t req Fresh (Some (body req)) s)
  ∨ (∃ sid, session_header req = Some sid ∧ streamable s !! sid = None
      ∧ inherited sid = true
      ∧ post sdk PROPER_404_CLIENT req s = Thrown s)
  ∨ (∃ sid, session_header req = Some sid ∧ sid ≠ "" ∧ streamable s !! sid = None
      ∧ inherited sid = false
      ∧ proper404Client PROPER_404_CLIENT = true
      ∧ post sdk PROPER_404_CLIENT req s
        = Ok tt (emit (Send 404 ("sessionId " +:+ sid +:+ " not found")) s))
  ∨ ((truthy (session_header req) = false
      ∨ (lookup_transport (session_header req) s = Undefined
         ∧ proper404Client PROPER_404_CLIENT = false))
     ∧ post sdk PROPER_404_CLIENT req s = bootstrap sdk req s).
Proof.
  destruct (truthy (session_header req)) eqn:Htr.
  - destruct (truthy_inv _ Htr) as (sid & Hh & Hne).
    destruct (streamable s !! sid) as [t|] eqn:Hl.
    + left. exists sid, t. split; [done|]. split; [done|]. split; [done|].
      exact (post_reuse s req sid t Hh Hl Hne).
    + right. destruct (inherited sid) eqn:Hi.
      * left. exists sid. split; [done|]. split; [done|]. split; [done|].
        exact (post_inherited s req sid Hh Hl Hi).
      * right. destruct (proper404Client PROPER_404_CLIENT) eqn:Hs.
        -- left. exists sid. split; [done|]. split; [done|]. split; [done|].
           split; [done|]. split; [done|].
           exact (post_reject s req sid Hh Hl Hi Hne Hs).
        -- right. assert (lookup_transport (session_header req) s = Undefined) as Hnone.
           { rewrite Hh. by apply lookup_undefined. }
           split; [by right|]. by apply post_bootstrap_lenient.
  - right. right. right. split; [by left|]. by apply post_bootstrap_absent.
Qed.

Lemma handleSessionRequest_reject s req :
  truthy (session_header req) = false
  ∨ lookup_transport (session_header req) s = Undefined →
  handleSessionRequest sdk req s
  = Ok tt (emit (Send 404 "Invalid or missing session ID") s).
Proof.
  intros [Hf | Hl]; unfold handleSessionRequest; run.
  - by rewrite Hf.
  - rewrite Hl. simpl. by rewrite orb_true_r.
Qed.

Lemma handleSessionRequest_delegate s req sid t :
  session_header req = Some sid → streamable s !! sid = Some t → sid ≠ "" →
  handleSessionRequest sdk req s = handleRequest sdk t req Fresh None s.
Proof.
  intros Hh Hl Hne. apply truthy_Some in Hne.
  unfold handleSessionRequest. run. rewrite Hh, (lookup_own s sid t Hl), Hne. done.
Qed.

Lemma handleSessionRequest_inherited s req sid :
  session_header req = Some sid → streamable s !! sid = None → inherited sid = true →
  handleSessionRequest sdk req s = Thrown s.
Proof.
  intros Hh Hl Hi. pose proof (inherited_truthy sid Hi) as Hne. apply truthy_Some in Hne.
  unfold handleSessionRequest. run. rewrite Hh, (lookup_inherited s sid Hl Hi), Hne. done.
Qed.

(** The branch a GET or DELETE takes. *)
Lemma handleSessionRequest_branches s req :
  ((truthy (session_header req) = false
    ∨ lookup_transport (session_header req) s = Undefined)
   ∧ handleSessionRequest sdk req s
     = Ok tt (emit (Send 404 "Invalid or missing session ID") s))
  ∨ (∃ sid t, session_header req = Some sid ∧ sid ≠ "" ∧ streamable s !! sid = Some t
       ∧ handleSessionRequest sdk req s = handleRequest sdk t req Fresh None s)
  ∨ (∃ sid, session_header req = Some sid ∧ streamable s !! sid = None
       ∧ inherited sid = true
       ∧ handleSessionRequest sdk req s = Thrown s).
Proof.
  destruct (truthy (session_header req)) eqn:Htr.
  - destruct (truthy_inv _ Htr) as (sid & Hh & Hne).
    destruct (streamable s !! sid) as [t|] eqn:Hl.
    + right. left. exists sid, t. split; [done|]. split; [done|]. split; [done|].
      exact (handleSessionRequest_delegate s req sid t Hh Hl Hne).
    + destruct (inherited sid) eqn:Hi.
      * right. right. exists sid. split; [done|]. split; [done|]. split; [done|].
        exact (handleSessionRequest_inherited s req sid Hh Hl Hi).
      * assert (lookup_transport (session_header req) s = Undefined) as Hnone.
        { rewrite Hh. by apply lookup_undefined. }
        left. split; [by right|]. apply handleSessionRequest_reject. by right.
  - left. split; [by left|]. apply handleSessionRequest_reject. by left.
Qed.

End Branches.

(** ** Invariants of the session map *)

Section Invariants.

Context (sdk : Sdk) (PROPER_404_CLIENT : option string).

Lemma consistent_initial : consistent initial.
Proof.
  split; simpl; try done.
  intros t H. by apply elem_of_nil in H.
Qed.

Lemma consistent_emit e s : consistent s → consistent (emit e s).
Proof. intros [H1 H2 H3 H4]. by split. Qed.

Lemma onclose_consistent s t : consistent s → consistent (final (onclose t s)).
Proof.
  intros [H1 H2 H3 H4].
  destruct (onclose_frame s t) as (Hh & Hc & _ & _ & Hm & Hcur).
  split.
  - destruct (streamable (final (onclose t s)) !! "") as [x|] eqn:E; [|done].
    apply Hm in E. congruence.
  - intros id t' Hl. rewrite Hc. eauto.
  - intros c Hcur'. rewrite Hc. destruct Hcur as [Hn | Hsame]; [congruence|].
    apply H3. congruence.
  - intros t' Hin. rewrite Hh. apply H4. by rewrite <- Hc.
Qed.

Lemma initialize_consistent s t :
  consistent s → t ∈ connected (server s) → consistent (final (initialize sdk t s)).
Proof.
  intros [H1 H2 H3 H4] Hin. destruct (heap s !! t) as [tr|] eqn:Ht.
  - destruct (initialize_run sdk s t tr Ht) as (s' & E & Hm & Hh & Hs & _).
    rewrite E. simpl. split.
    + rewrite Hm. destruct (truthy (Some (generated sdk (captured tr) s))) eqn:Hg; [|done].
      apply truthy_Some in Hg. by rewrite lookup_insert_ne.
    + intros id t' Hl. rewrite Hs. rewrite Hm in Hl.
      destruct (truthy (Some (generated sdk (captured tr) s))); [|eauto].
      apply lookup_insert_Some in Hl as [[_ <-]|[_ Hl]]; eauto.
    + rewrite Hs. done.
    + intros t' Hin'. rewrite Hh, length_alter. apply H4. by rewrite <- Hs.
  - unfold initialize, sessionIdGenerator. run. rewrite Ht. by split.
Qed.

Lemma handleRequest_connected s t req res b :
  connected (server (final (handleRequest sdk t req res b s))) = connected (server s).
Proof.
  destruct res; [|done].
  destruct (heap s !! t) as [tr|] eqn:Ht.
  - rewrite (handleRequest_run _ _ _ _ _ _ Ht). destruct (reaction sdk tr req b).
    + destruct (initialize_run sdk (emit (HandleRequest t req b) s) t tr Ht)
        as (s' & E & _ & _ & Hs & _). rewrite E. simpl. by rewrite Hs.
    + destruct (onclose_frame (emit (HandleRequest t req b) s) t) as (_ & Hc & _).
      by rewrite Hc.
    + done.
  - unfold handleRequest. run. simpl. by rewrite Ht.
Qed.

Lemma handleRequest_heap_length s t req res b :
  length (heap (final (handleRequest sdk t req res b s))) = length (heap s).
Proof.
  destruct res; [|done].
  destruct (heap s !! t) as [tr|] eqn:Ht.
  - rewrite (handleRequest_run _ _ _ _ _ _ Ht). destruct (reaction sdk tr req b).
    + destruct (initialize_run sdk (emit (HandleRequest t req b) s) t tr Ht)
        as (s' & E & _ & Hh & _). rewrite E. simpl. rewrite Hh. apply length_alter.
    + destruct (onclose_frame (emit (HandleRequest t req b) s) t) as (Hh & _).
      by rewrite Hh.
    + done.
  - unfold handleRequest. run. simpl. by rewrite Ht.
Qed.

Lemma handleRequest_consistent s t req res b :
  consistent s → t ∈ connected (server s) →
  consistent (final (handleRequest sdk t req res b s)).
Proof.
  intros Hc Hin. destruct res; [|by apply consistent_emit].
  destruct (heap s !! t) as [tr|] eqn:Ht.
  - rewrite (handleRequest_run _ _ _ _ _ _ Ht). destruct (reaction sdk tr req b).
    + apply initialize_consistent; [by apply consistent_emit | done].
    + apply onclose_consistent. by apply consistent_emit.
    + by apply consistent_emit.
  - unfold handleRequest. run. simpl. rewrite Ht. by apply consistent_emit.
Qed.

Lemma setupSession_consistent s sessionId :
  consistent s → consistent (final (setupSession sdk sessionId s)).
Proof.
  intros [H1 H2 H3 H4].
  destruct (setupSession_run sdk s sessionId) as (s1 & E & Hm & Hh & Hc & Hcur & _).
  assert (final (setupSession sdk sessionId s) = s1) as ->.
  { rewrite E. by destruct (connect_ok sdk (server s)). }
  assert (length (heap s1) = S (length (heap s))) as Hlen.
  { rewrite Hh, length_app. simpl. lia. }
  split.
  - by rewrite Hm.
  - intros id t Hl. rewrite Hc, Hm in *.
    destruct (connect_ok sdk (server s)); [apply elem_of_app; left|]; eauto.
  - intros c Hc'. rewrite Hc, Hcur in *. destruct (connect_ok sdk (server s)).
    + injection Hc' as <-. apply elem_of_app. right. by apply list_elem_of_singleton.
    + eauto.
  - intros t Hin. rewrite Hlen. rewrite Hc in Hin.
    destruct (connect_ok sdk (server s)).
    + apply elem_of_app in Hin as [Hin | Hin].
      * apply H4 in Hin. lia.
      * apply list_elem_of_singleton in Hin as ->. lia.
    + apply H4 in Hin. lia.
Qed.

Lemma bootstrap_consistent s req :
  consistent s → consistent (final (bootstrap sdk req s)).
Proof.
  intros Hs. unfold bootstrap, bind.
  pose proof (setupSession_consistent s (session_header req) Hs) as Hs1.
  destruct (setupSession_run sdk s (session_header req)) as (s1 & E & _ & _ & Hc & _).
  rewrite E in *. destruct (connect_ok sdk (server s)); simpl in *; [|done].
  assert (length (heap s) ∈ connected (server s1)) as Hin.
  { rewrite Hc. apply elem_of_app. right. by apply list_elem_of_singleton. }
  destruct (isInitializeRequest sdk (body req)).
  - by apply handleRequest_consistent.
  - pose proof (handleRequest_consistent s1 _ req Fresh (Some synthesizedInitialize) Hs1 Hin)
      as Hs2.
    pose proof (handleRequest_connected s1 (length (heap s)) req Fresh
                  (Some synthesizedInitialize)) as Hc2.
    destruct (handleRequest sdk (length (heap s)) req Fresh (Some synthesizedInitialize) s1)
      as [[] s2|s2]; simpl in *; [|done].
    by apply consistent_emit.
Qed.

Lemma app_consistent s req :
  consistent s → consistent (final (app sdk PROPER_404_CLIENT req s)).
Proof.
  intros Hc. unfold app. destruct (method req); [| | |done].
  - destruct (post_branches sdk PROPER_404_CLIENT s req)
      as [(sid & t & _ & _ & Hl & ->)|[(sid & _ & _ & _ & ->)
         |[(sid & _ & _ & _ & _ & _ & ->)|[_ ->]]]].
    + apply handleRequest_consistent; [done|]. by eapply keys_connected.
    + done.
    + by apply consistent_emit.
    + by apply bootstrap_consistent.
  - destruct (handleSessionRequest_branches sdk s req)
      as [[_ ->]|[(sid & t & _ & _ & Hl & ->)|(sid & _ & _ & _ & ->)]].
    + by apply consistent_emit.
    + apply handleRequest_consistent; [done|]. by eapply keys_connected.
    + done.
  - destruct (handleSessionRequest_branches sdk s req)
      as [[_ ->]|[(sid & t & _ & _ & Hl & ->)|(sid & _ & _ & _ & ->)]].
    + by apply consistent_emit.
    + apply handleRequest_consistent; [done|]. by eapply keys_connected.
    + done.
Qed.

Lemma reachable_consistent s : reachable sdk PROPER_404_CLIENT s → consistent s.
Proof.
  induction 1 as [|s req _ IH|s t _ IH _].
  - apply consistent_initial.
  - by apply app_consistent.
  - by apply onclose_consistent.
Qed.

(** In a reachable state the transport the server holds exists. *)
Lemma reachable_held s c :
  reachable sdk PROPER_404_CLIENT s → current (server s) = Some c →
  is_Some (heap s !! c).
Proof.
  intros Hreach Hc. destruct (reachable_consistent s Hreach) as [_ _ H3 H4].
  apply lookup_lt_is_Some. eauto.
Qed.

End Invariants.

Section Bound.

Context (sdk : Sdk) (PROPER_404_CLIENT : option string).
Hypothesis contract : sdk_contract sdk.

Lemma bound_initial : bound initial.
Proof. intros id t H. simpl in H. by rewrite lookup_empty in H. Qed.

Lemma bound_allocated s id t : bound s → streamable s !! id = Some t → t < length (heap s).
Proof. intros Hb Hl. destruct (Hb id t Hl) as (tr & Ht & _). by eapply lookup_lt_Some. Qed.

Lemma onclose_bound s t : bound s → bound (final (onclose t s)).
Proof.
  intros Hb id t' Hl.
  destruct (onclose_frame s t) as (Hh & _ & _ & _ & Hm & _).
  rewrite Hh. apply Hb. by apply Hm.
Qed.

Lemma initialize_bound s t tr :
  bound s → heap s !! t = Some tr → t_sessionId tr = None →
  bound (final (initialize sdk t s)).
Proof.
  intros Hb Ht Hnone.
  destruct (initialize_run sdk s t tr Ht) as (s' & E & Hm & Hh & _). rewrite E. simpl.
  set (sid := generated sdk (captured tr) s) in *.
  assert (∀ id t', streamable s !! id = Some t' →
            ∃ tr', heap s' !! t' = Some tr' ∧ t_sessionId tr' = Some id) as Hold.
  { intros id t' Hl. destruct (Hb id t' Hl) as (tr' & Ht' & Hid).
    assert (t ≠ t') as Hne by (intros ->; congruence).
    exists tr'. split; [|done]. rewrite Hh. by rewrite list_lookup_alter_ne. }
  intros id t' Hl. rewrite Hm in Hl.
  destruct (truthy (Some sid)); [|by apply Hold].
  apply lookup_insert_Some in Hl as [[<- <-]|[_ Hl]]; [|by apply Hold].
  eexists. split.
  - rewrite Hh, list_lookup_alter_eq, Ht. reflexivity.
  - reflexivity.
Qed.

Lemma handleRequest_bound s t req res b :
  bound s → bound (final (handleRequest sdk t req res b s)).
Proof.
  intros Hb. destruct res; [|done]. destruct (heap s !! t) as [tr|] eqn:Ht.
  - rewrite (handleRequest_run _ _ _ _ _ _ Ht).
    destruct (reaction sdk tr req b) eqn:Hr.
    + eapply initialize_bound; [done | exact Ht |]. by eapply init_once.
    + by apply onclose_bound.
    + done.
  - unfold handleRequest. run. simpl. by rewrite Ht.
Qed.

Lemma setupSession_bound s sessionId :
  bound s → bound (final (setupSession sdk sessionId s)).
Proof.
  intros Hb. destruct (setupSession_run sdk s sessionId) as (s' & E & Hm & Hh & _).
  assert (bound s') as Hb'.
  { intros id t Hl. rewrite Hm in Hl. destruct (Hb id t Hl) as (tr & Ht & Hid).
    exists tr. split; [|done]. rewrite Hh. by apply lookup_app_l_Some. }
  rewrite E. by destruct (connect_ok sdk (server s)).
Qed.

Lemma bootstrap_bound s req : bound s → bound (final (bootstrap sdk req s)).
Proof.
  intros Hb. unfold bootstrap, bind.
  pose proof (setupSession_bound s (session_header req) Hb) as Hb1.
  destruct (setupSession sdk (session_header req) s) as [t s1|s1]; simpl in *; [|done].
  destruct (isInitializeRequest sdk (body req)); [by apply handleRequest_bound|].
  pose proof (handleRequest_bound s1 t req Fresh (Some synthesizedInitialize) Hb1) as Hb2.
  destruct (handleRequest sdk t req Fresh (Some synthesizedInitialize) s1) as [[] s2|s2];
    simpl in *; done.
Qed.

Lemma app_bound s req : bound s → bound (final (app sdk PROPER_404_CLIENT req s)).
Proof.
  intros Hb. unfold app. destruct (method req); [| | |done].
  - destruct (post_branches sdk PROPER_404_CLIENT s req)
      as [(sid & t & _ & _ & Hl & ->)|[(sid & _ & _ & _ & ->)
         |[(sid & _ & _ & _ & _ & _ & ->)|[_ ->]]]].
    + by apply handleRequest_bound.
    + done.
    + done.
    + by apply bootstrap_bound.
  - destruct (handleSessionRequest_branches sdk s req)
      as [[_ ->]|[(sid & t & _ & _ & Hl & ->)|(sid & _ & _ & _ & ->)]];
      [done | by apply handleRequest_bound | done].
  - destruct (handleSessionRequest_branches sdk s req)
      as [[_ ->]|[(sid & t & _ & _ & Hl & ->)|(sid & _ & _ & _ & ->)]];
      [done | by apply handleRequest_bound | done].
Qed.

Lemma reachable_bound s : reachable sdk PROPER_404_CLIENT s → bound s.
Proof.
  induction 1 as [|s req _ IH|s t _ IH _].
  - apply bound_initial.
  - by apply app_bound.
  - by apply onclose_bound.
Qed.

End Bound.

(** ** POST requests seen by a transport *)

Section Handshake.

Context (sdk : Sdk).
Hypothesis contract : sdk_contract sdk.

(** Under the contract a POST on a fresh response either initializes a
    transport that has no session yet, or changes nothing but the trace. *)
Lemma handleRequest_post s t tr req b :
  method req = POST → heap s !! t = Some tr →
  let sid := generated sdk (captured tr) s in
  ∃ s', handleRequest sdk t req Fresh b s = Ok tt s'
    ∧ trace s' = (trace s ++ [HandleRequest t req b])%list
    ∧ server s' = server s
    ∧ ((reaction sdk tr req b = Initializes ∧ t_sessionId tr = None
        ∧ streamable s' = (if truthy (Some sid) then <[sid := t]> (streamable s)
                           else streamable s)
        ∧ heap s' = alter (fun tr => {| captured := captured tr;
                                        t_sessionId := Some sid |}) t (heap s)
        ∧ uuid_calls s' = (if truthy (captured tr) then uuid_calls s
                           else S (uuid_calls s)))
       ∨ (reaction sdk tr req b ≠ Initializes
          ∧ streamable s' = streamable s ∧ heap s' = heap s
          ∧ uuid_calls s' = uuid_calls s)).
Proof.
  intros Hm Ht sid. rewrite (handleRequest_run _ _ _ _ _ _ Ht).
  destruct (reaction sdk tr req b) eqn:Hr.
  - destruct (initialize_run sdk (emit (HandleRequest t req b) s) t tr Ht)
      as (s' & E & Hmap & Hheap & Hsrv & Hu & Htr).
    exists s'. split; [done|]. split; [done|]. split; [done|]. left.
    split; [done|]. split; [by eapply init_once|]. done.
  - apply (close_on_delete _ contract) in Hr. congruence.
  - eexists. split; [reflexivity|]. split; [done|]. split; [done|]. right. done.
Qed.

Lemma handleRequest_post_initialized s t tr req b :
  method req = POST → heap s !! t = Some tr → is_Some (t_sessionId tr) →
  handleRequest sdk t req Fresh b s = Ok tt (emit (HandleRequest t req b) s).
Proof.
  intros Hm Ht [sid Hsid]. rewrite (handleRequest_run _ _ _ _ _ _ Ht).
  destruct (reaction sdk tr req b) eqn:Hr; [| |done].
  - apply (init_once _ contract) in Hr. congruence.
  - apply (close_on_delete _ contract) in Hr. congruence.
Qed.

End Handshake.

Lemma fresh_lookup (h : list Transport) (tr : Transport) :
  (h ++ [tr])%list !! length h = Some tr.
Proof. by rewrite lookup_app_r, Nat.sub_diag. Qed.

Lemma fresh_alter (h : list Transport) (tr : Transport) (f : Transport → Transport) :
  alter f (length h) (h ++ [tr])%list = (h ++ [f tr])%list.
Proof.
  apply list_eq. intros i. rewrite list_lookup_alter.
  destruct (decide (length h = i)) as [<-|Hne].
  - by rewrite !fresh_lookup.
  - destruct (decide (i < length h)) as [Hlt|Hge].
    + by rewrite !lookup_app_l.
    + rewrite !lookup_ge_None_2; [done | |]; rewrite length_app; simpl; lia.
Qed.

Module ReferenceFacts.

Import Reference.

Lemma reference_contract : sdk_contract sdk.
Proof.
  split; intros tr req b; simpl; unfold reaction; destruct (method req); try done.
  - destruct (existsb _ _); simpl; [|done].
    destruct (bool_decide_reflect (t_sessionId tr = None)); simpl; [|done]. done.
  - by destruct (_ && _).
  - by destruct (_ && _).
Qed.

End ReferenceFacts.

(** ** The bootstrap path of POST *)

Section BootstrapPath.

Context (sdk : Sdk).

(** A transport handed a fresh response returns, in a state where it and
    the transport the server holds exist. *)
Lemma handleRequest_returns s t tr req b :
  heap s !! t = Some tr →
  (∀ c, current (server s) = Some c → is_Some (heap s !! c)) →
  ∃ s', handleRequest sdk t req Fresh b s = Ok tt s'.
Proof.
  intros Ht Hheld. rewrite (handleRequest_run _ _ _ _ _ _ Ht).
  destruct (reaction sdk tr req b).
  - destruct (initialize_run sdk (emit (HandleRequest t req b) s) t tr Ht) as (s' & E & _).
    eauto.
  - destruct (onclose_run (emit (HandleRequest t req b) s) t tr Ht Hheld) as (s' & E & _).
    eauto.
  - eauto.
Qed.

(** No callback changes which identifier a transport's generator closes
    over. *)
Lemma handleRequest_captured s t req res b t' :
  captured <$> heap (final (handleRequest sdk t req res b s)) !! t'
  = captured <$> heap s !! t'.
Proof.
  destruct res; [|done].
  destruct (heap s !! t) as [tr|] eqn:Ht.
  - rewrite (handleRequest_run _ _ _ _ _ _ Ht). destruct (reaction sdk tr req b).
    + destruct (initialize_run sdk (emit (HandleRequest t req b) s) t tr Ht)
        as (s' & E & _ & Hh & _). rewrite E. simpl. rewrite Hh. simpl.
      rewrite list_lookup_alter. case_decide as Heq; [|done].
      subst t'. by rewrite Ht.
    + destruct (onclose_frame (emit (HandleRequest t req b) s) t) as (Hh & _).
      by rewrite Hh.
    + done.
  - unfold handleRequest. run. simpl. by rewrite Ht.
Qed.

(** After [setupSession] the new transport exists and is the one the
    server holds. *)
Lemma setupSession_connected s sessionId :
  connect_ok sdk (server s) = true →
  ∃ s1, setupSession sdk sessionId s = Ok (length (heap s)) s1
    ∧ streamable s1 = streamable s
    ∧ heap s1 = (heap s ++ [ {| captured := sessionId; t_sessionId := None |} ])%list
    ∧ connected (server s1) = (connected (server s) ++ [length (heap s)])%list
    ∧ current (server s1) = Some (length (heap s))
    ∧ uuid_calls s1 = uuid_calls s
    ∧ trace s1 = trace s
    ∧ heap s1 !! length (heap s) = Some {| captured := sessionId; t_sessionId := None |}
    ∧ (∀ c, current (server s1) = Some c → is_Some (heap s1 !! c)).
Proof.
  intros Hok.
  destruct (setupSession_run sdk s sessionId) as (s1 & E & Hm & Hh & Hc & Hcur & Hu & Htr).
  rewrite Hok in *. exists s1.
  assert (heap s1 !! length (heap s)
          = Some {| captured := sessionId; t_sessionId := None |}) as Ht.
  { rewrite Hh. apply fresh_lookup. }
  repeat (split; [done|]).
  intros c Hc'. rewrite Hcur in Hc'. injection Hc' as <-. by eexists.
Qed.

Lemma bootstrap_trace s req :
  trace (final (bootstrap sdk req s))
  = (trace s ++ if connect_ok sdk (server s) then delivered sdk (length (heap s)) req
                else [])%list.
Proof.
  unfold bootstrap, bind, delivered.
  destruct (connect_ok sdk (server s)) eqn:Hok.
  - destruct (setupSession_connected s (session_header req) Hok)
      as (s1 & E & _ & _ & _ & _ & _ & Htr & Ht & Hheld).
    rewrite E. destruct (isInitializeRequest sdk (body req)).
    + by rewrite handleRequest_trace, Htr.
    + pose proof (handleRequest_trace sdk s1 (length (heap s)) req Fresh
                    (Some synthesizedInitialize)) as Htr1.
      destruct (handleRequest_returns s1 _ _ req (Some synthesizedInitialize) Ht Hheld)
        as (s2 & E2).
      rewrite E2 in *. simpl in *. rewrite Htr1, Htr. by rewrite <- app_assoc.
  - destruct (setupSession_run sdk s (session_header req)) as (s1 & E & _ & _ & _ & _ & _ & Htr).
    rewrite E, Hok. simpl. by rewrite Htr, app_nil_r.
Qed.

Lemma bootstrap_captured s req :
  captured <$> heap (final (bootstrap sdk req s)) !! length (heap s)
  = Some (session_header req).
Proof.
  unfold bootstrap, bind.
  destruct (setupSession_run sdk s (session_header req)) as (s1 & E & _ & Hh & _).
  assert (captured <$> heap s1 !! length (heap s) = Some (session_header req)) as H1.
  { rewrite Hh, fresh_lookup. done. }
  rewrite E. destruct (connect_ok sdk (server s)); simpl; [|done].
  destruct (isInitializeRequest sdk (body req)).
  - by rewrite handleRequest_captured.
  - pose proof (handleRequest_captured s1 (length (heap s)) req Fresh
                  (Some synthesizedInitialize) (length (heap s))) as H2.
    destruct (handleRequest sdk (length (heap s)) req Fresh (Some synthesizedInitialize) s1)
      as [[] s2|s2]; simpl in *; by rewrite H2.
Qed.

End BootstrapPath.

(** * The properties of the specification *)

(** ** Capability handlers *)




(** ** Strict-client mode *)

(** C2, as the specification states it, fails: a session header that is
    present but empty is not rejected in strict mode; the request is
    served as if it carried no header, and a transport is created and
    registered. *)
Lemma strict_empty_header_served :
  proper404Client Reference.strictEnv = true
  ∧ session_header (Reference.request POST (Some "") Reference.listToolsBody) = Some ""
  ∧ streamable initial !! "" = None
  ∧ trace (final (app Reference.sdk Reference.strictEnv
                    (Reference.request POST (Some "") Reference.listToolsBody) initial))
    = [HandleRequest 0 (Reference.request POST (Some "") Reference.listToolsBody)
         (Some synthesizedInitialize);
       HandleRequest 0 (Reference.request POST (Some "") Reference.listToolsBody)
         (Some Reference.listToolsBody)]
  ∧ length (heap (final (app Reference.sdk Reference.strictEnv
                           (Reference.request POST (Some "") Reference.listToolsBody)
                           initial))) = 1
  ∧ ¬ (∃ s', app Reference.sdk Reference.strictEnv
               (Reference.request POST (Some "") Reference.listToolsBody) initial
             = Ok tt s'
           ∧ trace s' = (trace initial ++ [Send 404 "sessionId  not found"])%list
           ∧ heap s' = heap initial
           ∧ streamable s' = streamable initial).
Proof.
  split; [reflexivity|]. split; [reflexivity|]. split; [reflexivity|].
  split; [reflexivity|]. split; [reflexivity|].
  intros (s' & E & _ & Hheap & _).
  apply (f_equal final) in E. simpl in E. rewrite <- E in Hheap.
  apply (f_equal length) in Hheap. vm_compute in Hheap. discriminate.
Qed.

(** C2 (amended): in strict-client mode a POST whose session header is
    present, not empty and without an entry in the session map is answered
    404 with body ["sessionId <id> not found"]; no transport is created and
    nothing but the response changes. Identifiers that name a member of
    [Object.prototype] are left aside: for them the lookup does not come
    back empty. *)
Theorem strict_unmatched_rejected (sdk : Sdk) (env : option string)
    (req : Request) (s : State) (sid : string) :
  method req = POST →
  session_header req = Some sid →
  sid ≠ "" →
  inherited sid = false →
  streamable s !! sid = None →
  proper404Client env = true →
  ∃ s', app sdk env req s = Ok tt s'
    ∧ trace s' = (trace s ++ [Send 404 ("sessionId " +:+ sid +:+ " not found")])%list
    ∧ heap s' = heap s
    ∧ streamable s' = streamable s
    ∧ server s' = server s.
Proof.
  intros Hm Hh Hne Hi Hl Hstrict. unfold app. rewrite Hm.
  rewrite (post_reject sdk env s req sid Hh Hl Hi Hne Hstrict).
  eexists. split; [reflexivity|]. done.
Qed.

Lemma strict_unmatched_rejected_witness :
  ∃ s', app Reference.sdk Reference.strictEnv
          (Reference.request POST (Some "zz") Reference.listToolsBody) Reference.oneSession
        = Ok tt s'
    ∧ trace s' = (trace Reference.oneSession ++ [Send 404 "sessionId zz not found"])%list
    ∧ heap s' = heap Reference.oneSession
    ∧ streamable s' = streamable Reference.oneSession
    ∧ server s' = server Reference.oneSession.
Proof.
  apply (strict_unmatched_rejected Reference.sdk Reference.strictEnv
           (Reference.request POST (Some "zz") Reference.listToolsBody)
           Reference.oneSession "zz").
  - reflexivity.
  - reflexivity.
  - discriminate.
  - vm_compute. reflexivity.
  - vm_compute. reflexivity.
  - reflexivity.
Defined.

(** ** The bootstrap path in lenient mode *)

(** C1, as the specification states it, fails: in lenient mode a POST
    with an unmatched identifier and an initialize-shaped payload hands
    that payload alone to the new transport; no synthesized initialize
    request precedes it. *)
Lemma lenient_unmatched_handshake_not_synthesized :
  proper404Client None = false
  ∧ session_header (Reference.request POST (Some "abc") Reference.initializeBody)
    = Some "abc"
  ∧ streamable initial !! "abc" = None
  ∧ isInitializeRequest Reference.sdk Reference.initializeBody = true
  ∧ trace (final (app Reference.sdk None
                    (Reference.request POST (Some "abc") Reference.initializeBody) initial))
    = [HandleRequest 0 (Reference.request POST (Some "abc") Reference.initializeBody)
         (Some Reference.initializeBody)]
  ∧ ∀ t, HandleRequest t (Reference.request POST (Some "abc") Reference.initializeBody)
           (Some synthesizedInitialize)
         ∉ trace (final (app Reference.sdk None
                    (Reference.request POST (Some "abc") Reference.initializeBody) initial)).
Proof.
  assert (trace (final (app Reference.sdk None
                    (Reference.request POST (Some "abc") Reference.initializeBody) initial))
    = [HandleRequest 0 (Reference.request POST (Some "abc") Reference.initializeBody)
         (Some Reference.initializeBody)]) as Htrace by reflexivity.
  split; [reflexivity|]. split; [reflexivity|]. split; [reflexivity|].
  split; [reflexivity|]. split; [exact Htrace|].
  intros t Hin. rewrite Htrace in Hin.
  apply list_elem_of_singleton in Hin. discriminate.
Qed.

(** C1 (amended): in lenient mode a POST with an identifier that has no
    entry creates a transport whose generator is bound to that identifier;
    once the transport is connected, an initialize-shaped payload is handed
    to it alone, and any other payload is preceded by the synthesized
    initialize request. Identifiers that name a member of
    [Object.prototype] are left aside. *)
Theorem lenient_unmatched_bootstrap (sdk : Sdk) (env : option string)
    (req : Request) (s : State) (sid : string) :
  method req = POST →
  session_header req = Some sid →
  inherited sid = false →
  streamable s !! sid = None →
  proper404Client env = false →
  captured <$> heap (final (app sdk env req s)) !! length (heap s) = Some (Some sid)
  ∧ trace (final (app sdk env req s))
    = (trace s ++
        if connect_ok sdk (server s) then
          if isInitializeRequest sdk (body req)
          then [HandleRequest (length (heap s)) req (Some (body req))]
          else [HandleRequest (length (heap s)) req (Some synthesizedInitialize);
                HandleRequest (length (heap s)) req (Some (body req))]
        else [])%list.
Proof.
  intros Hm Hh Hi Hl Hlenient. unfold app. rewrite Hm.
  rewrite post_bootstrap_lenient; [| by rewrite Hh; apply lookup_undefined | done].
  split.
  - by rewrite bootstrap_captured, Hh.
  - apply bootstrap_trace.
Qed.

Lemma lenient_unmatched_bootstrap_witness :
  captured <$> heap (final (app Reference.sdk None
      (Reference.request POST (Some "zz") Reference.listToolsBody) Reference.oneSession))
    !! 1 = Some (Some "zz")
  ∧ trace (final (app Reference.sdk None
      (Reference.request POST (Some "zz") Reference.listToolsBody) Reference.oneSession))
    = (trace Reference.oneSession ++
        [HandleRequest 1 (Reference.request POST (Some "zz") Reference.listToolsBody)
           (Some synthesizedInitialize);
         HandleRequest 1 (Reference.request POST (Some "zz") Reference.listToolsBody)
           (Some Reference.listToolsBody)])%list.
Proof.
  apply (lenient_unmatched_bootstrap Reference.sdk None
           (Reference.request POST (Some "zz") Reference.listToolsBody)
           Reference.oneSession "zz").
  - reflexivity.
  - reflexivity.
  - vm_compute. reflexivity.
  - vm_compute. reflexivity.
  - reflexivity.
Defined.

(** ** GET and DELETE *)

(** C3 fails on the code: for a GET or DELETE whose session header names
    a member of [Object.prototype] and has no entry (["constructor"],
    ["toString"], ...), the test of the handler finds the inherited member,
    no 404 is written, and the call of [handleRequest] on that member
    throws; nothing is changed and nothing is answered. *)
Theorem session_request_inherited_throws (sdk : Sdk) (env : option string)
    (req : Request) (s : State) (sid : string) :
  method req = GET ∨ method req = DELETE →
  session_header req = Some sid →
  streamable s !! sid = None →
  inherited sid = true →
  app sdk env req s = Thrown s
  ∧ app sdk env req s ≠ Ok tt (emit (Send 404 "Invalid or missing session ID") s).
Proof.
  intros Hm Hh Hl Hi.
  assert (app sdk env req s = Thrown s) as ->; [|done].
  unfold app. destruct Hm as [-> | ->]; by eapply handleSessionRequest_inherited.
Qed.

Lemma session_request_inherited_throws_witness :
  app Reference.sdk None (Reference.request GET (Some "constructor") JNull)
    Reference.oneSession = Thrown Reference.oneSession
  ∧ app Reference.sdk None (Reference.request GET (Some "constructor") JNull)
      Reference.oneSession
    ≠ Ok tt (emit (Send 404 "Invalid or missing session ID") Reference.oneSession).
Proof.
  apply (session_request_inherited_throws Reference.sdk None
           (Reference.request GET (Some "constructor") JNull)
           Reference.oneSession "constructor").
  - left. reflexivity.
  - reflexivity.
  - vm_compute. reflexivity.
  - vm_compute. reflexivity.
Defined.

(** ** Closing a transport *)

Lemma delete_absent (m : gmap string TransportRef) (tr : Transport) sid :
  t_sessionId tr = Some sid → m !! sid = None → unregistered tr m = m.
Proof.
  intros Hsid Hl. unfold unregistered. rewrite Hsid.
  destruct (truthy (Some sid)); [|done]. by apply delete_id.
Qed.

(** After the close callback of a transport with identifier [sid], the
    identifier has no entry, in a state where the empty string is no
    key. *)
Lemma closed_map_own (s : State) (tr : Transport) sid :
  streamable s !! "" = None → t_sessionId tr = Some sid →
  closed_map s tr !! sid = None.
Proof.
  intros Hempty Hsid.
  assert (unregistered tr (streamable s) !! sid = None) as H.
  { unfold unregistered. rewrite Hsid. destruct (truthy (Some sid)) eqn:Htr.
    - apply lookup_delete_eq.
    - destruct (decide (sid = "")) as [->|Hne]; [done|].
      apply truthy_Some in Hne. congruence. }
  unfold closed_map. destruct (current (server s)) as [c|]; [|done].
  destruct (heap s !! c); [|done]. by apply unregistered_None.
Qed.

(** And neither has the identifier of the transport the server held. *)
Lemma closed_map_held (s : State) (tr held : Transport) c sid :
  streamable s !! "" = None →
  current (server s) = Some c → heap s !! c = Some held → t_sessionId held = Some sid →
  closed_map s tr !! sid = None.
Proof.
  intros Hempty Hc Hheld Hsid. unfold closed_map. rewrite Hc, Hheld.
  unfold unregistered at 1. rewrite Hsid. destruct (truthy (Some sid)) eqn:Htr.
  - apply lookup_delete_eq.
  - destruct (decide (sid = "")) as [->|Hne].
    + by apply unregistered_None.
    + apply truthy_Some in Hne. congruence.
Qed.

(** C4: in every state the server reaches, when the close event of a
    transport with a session identifier fires, the callback returns, the
    identifier is absent from the session map and no entry of the map holds
    the transport any more; firing the event a second time returns as well
    and leaves the map as the first left it. *)
Theorem close_removes_session (sdk : Sdk) (env : option string)
    (s : State) (t : TransportRef) (tr : Transport) (sid : string) :
  sdk_contract sdk →
  reachable sdk env s →
  heap s !! t = Some tr →
  t_sessionId tr = Some sid →
  ∃ s1 s2, onclose t s = Ok tt s1
    ∧ streamable s1 !! sid = None
    ∧ (∀ id, streamable s1 !! id ≠ Some t)
    ∧ onclose t s1 = Ok tt s2
    ∧ streamable s2 = streamable s1.
Proof.
  intros Hc Hreach Ht Hsid.
  pose proof (keys_truthy s (reachable_consistent sdk env s Hreach)) as Hempty.
  pose proof (reachable_bound sdk env Hc s Hreach) as Hb.
  destruct (onclose_run s t tr Ht (fun c => reachable_held sdk env s c Hreach))
    as (s1 & E1 & Hm1 & Hh1 & _ & Hcur1 & _).
  assert (streamable s1 !! sid = None) as Hgone.
  { rewrite Hm1. by apply closed_map_own. }
  assert (heap s1 !! t = Some tr) as Ht1 by (by rewrite Hh1).
  destruct (onclose_run s1 t tr Ht1) as (s2 & E2 & Hm2 & _).
  { intros c. by rewrite Hcur1. }
  exists s1, s2. split; [done|]. split; [done|]. split.
  - intros id Hl. pose proof Hl as Hl0. rewrite Hm1 in Hl0. apply closed_map_Some in Hl0.
    destruct (Hb id t Hl0) as (tr' & Ht' & Hid).
    assert (id = sid) as -> by congruence. congruence.
  - split; [done|]. rewrite Hm2. unfold closed_map. rewrite Hcur1.
    by apply delete_absent with sid.
Qed.

Lemma close_removes_session_witness :
  ∃ s1 s2, onclose 0 Reference.twoSessions = Ok tt s1
    ∧ streamable s1 !! "abc" = None
    ∧ (∀ id, streamable s1 !! id ≠ Some 0)
    ∧ onclose 0 s1 = Ok tt s2
    ∧ streamable s2 = streamable s1.
Proof.
  apply (close_removes_session Reference.sdk None Reference.twoSessions 0
           {| captured := Some "abc"; t_sessionId := Some "abc" |} "abc").
  - exact ReferenceFacts.reference_contract.
  - apply reach_request, reach_request, reach_initial.
  - reflexivity.
  - reflexivity.
Defined.



(** ** Reusing a session *)

(** C5: in every state the server reaches, a POST whose session header
    has an entry in the session map is handled by the transport registered
    under that identifier, with the request's own payload; no transport is
    created, the map is unchanged and so is its size. *)
Theorem reuse_registered_transport (sdk : Sdk) (env : option string)
    (req : Request) (s : State) (sid : string) (t : TransportRef) :
  sdk_contract sdk →
  reachable sdk env s →
  method req = POST →
  session_header req = Some sid →
  streamable s !! sid = Some t →
  ∃ s', app sdk env req s = Ok tt s'
    ∧ trace s' = (trace s ++ [HandleRequest t req (Some (body req))])%list
    ∧ streamable s' = streamable s
    ∧ size (streamable s') = size (streamable s)
    ∧ heap s' = heap s.
Proof.
  intros Hc Hreach Hm Hh Hl.
  assert (sid ≠ "") as Hne.
  { intros ->. pose proof (keys_truthy s (reachable_consistent sdk env s Hreach)).
    congruence. }
  destruct (reachable_bound sdk env Hc s Hreach sid t Hl) as (tr & Ht & Hsid).
  unfold app. rewrite Hm, (post_reuse sdk env s req sid t Hh Hl Hne).
  rewrite (handleRequest_post_initialized sdk Hc s t tr req _ Hm Ht) by (by eexists).
  eexists. split; [reflexivity|]. done.
Qed.

Lemma reuse_registered_transport_witness :
  ∃ s', app Reference.sdk None
          (Reference.request POST (Some "abc") Reference.listToolsBody)
          Reference.twoSessions = Ok tt s'
    ∧ trace s' = (trace Reference.twoSessions
                  ++ [HandleRequest 0
                        (Reference.request POST (Some "abc") Reference.listToolsBody)
                        (Some Reference.listToolsBody)])%list
    ∧ streamable s' = streamable Reference.twoSessions
    ∧ size (streamable s') = size (streamable Reference.twoSessions)
    ∧ heap s' = heap Reference.twoSessions.
Proof.
  apply (reuse_registered_transport Reference.sdk None
           (Reference.request POST (Some "abc") Reference.listToolsBody)
           Reference.twoSessions "abc" 0).
  - exact ReferenceFacts.reference_contract.
  - apply reach_request, reach_request, reach_initial.
  - reflexivity.
  - reflexivity.
  - vm_compute. reflexivity.
Defined.

(** ** Creating a session *)

Section NewSession.

Context (sdk : Sdk).

Lemma generated_absent s v : truthy v = false → generated sdk v s = randomUUID sdk (uuid_calls s).
Proof. intros H. unfold generated. by rewrite H. Qed.

Lemma generated_same s1 s v :
  uuid_calls s1 = uuid_calls s → generated sdk v s1 = generated sdk v s.
Proof. intros H. unfold generated. by rewrite H. Qed.

(** The new transport initializes: it is registered under the identifier
    its generator returns, unless that is the empty string. *)
Lemma initialize_fresh s s1 sessionId :
  heap s1 = (heap s ++ [ {| captured := sessionId; t_sessionId := None |} ])%list →
  streamable s1 = streamable s →
  uuid_calls s1 = uuid_calls s →
  ∃ s2, initialize sdk (length (heap s)) s1 = Ok tt s2
    ∧ streamable s2
      = (if truthy (Some (generated sdk sessionId s))
         then <[generated sdk sessionId s := length (heap s)]> (streamable s)
         else streamable s)
    ∧ heap s2 = (heap s ++ [ {| captured := sessionId;
                                t_sessionId := Some (generated sdk sessionId s) |} ])%list
    ∧ server s2 = server s1
    ∧ uuid_calls s2 = (if truthy sessionId then uuid_calls s else S (uuid_calls s))
    ∧ trace s2 = trace s1.
Proof.
  intros Hh Hm Hu.
  assert (heap s1 !! length (heap s)
          = Some {| captured := sessionId; t_sessionId := None |}) as Ht.
  { rewrite Hh. apply fresh_lookup. }
  destruct (initialize_run sdk s1 _ _ Ht) as (s2 & E & Hm2 & Hh2 & Hs2 & Hu2 & Htr2).
  simpl in *. rewrite (generated_same s1 s _ Hu) in *.
  exists s2. split; [done|]. split; [by rewrite Hm2, Hm|]. split.
  - rewrite Hh2, Hh. apply fresh_alter.
  - split; [done|]. split; [by rewrite Hu2, Hu|]. done.
Qed.

(** [setupSession], then the first payload makes the transport
    initialize. *)
Lemma setup_then_handshake s req payload :
  connect_ok sdk (server s) = true →
  reaction sdk {| captured := session_header req; t_sessionId := None |} req (Some payload)
  = Initializes →
  ∃ s1 s2, setupSession sdk (session_header req) s = Ok (length (heap s)) s1
    ∧ handleRequest sdk (length (heap s)) req Fresh (Some payload) s1 = Ok tt s2
    ∧ streamable s2
      = (if truthy (Some (generated sdk (session_header req) s))
         then <[generated sdk (session_header req) s := length (heap s)]> (streamable s)
         else streamable s)
    ∧ heap s2 = (heap s ++ [ {| captured := session_header req;
                                t_sessionId := Some (generated sdk (session_header req) s) |} ])%list
    ∧ uuid_calls s2 = (if truthy (session_header req) then uuid_calls s
                       else S (uuid_calls s))
    ∧ trace s2 = (trace s ++ [HandleRequest (length (heap s)) req (Some payload)])%list.
Proof.
  intros Hok Hr.
  destruct (setupSession_connected sdk s (session_header req) Hok)
    as (s1 & E1 & Hm1 & Hh1 & _ & _ & Hu1 & Htr1 & Ht & _).
  destruct (initialize_fresh s (emit (HandleRequest (length (heap s)) req (Some payload)) s1)
              (session_header req) Hh1 Hm1 Hu1)
    as (s2 & E2 & Hm2 & Hh2 & _ & Hu2 & Htr2).
  exists s1, s2. split; [done|]. split.
  - by rewrite (handleRequest_run _ _ _ _ _ _ Ht), Hr.
  - split; [done|]. split; [done|]. split; [done|]. rewrite Htr2. simpl. by rewrite Htr1.
Qed.

End NewSession.







(** ** Registration is all or nothing *)

Section Atomicity.

Context (sdk : Sdk).
Hypothesis contract : sdk_contract sdk.

Lemma settled_emit m t req e s : settled sdk m t req s → settled sdk m t req (emit e s).
Proof. done. Qed.

Lemma handleRequest_settled m t req res b s :
  method req = POST → settled sdk m t req s →
  settled sdk m t req (final (handleRequest sdk t req res b s)).
Proof.
  intros Hm Hs. destruct res; [|by apply settled_emit].
  destruct Hs as (Hin & tr & Ht & Hcap & Hreg).
  destruct (handleRequest_post sdk contract s t tr req b Hm Ht)
    as (s' & E & _ & Hsrv & [(Hr & Hnone & Hmap & Hheap & _) | (_ & Hmap & Hheap & _)]);
    rewrite E; simpl; (split; [by rewrite Hsrv|]).
  - eexists. split; [by rewrite Hheap, list_lookup_alter_eq, Ht|]. split; [done|].
    destruct Hreg as [Hsame | (sid & b' & _ & _ & Hsid & _)]; [|congruence].
    destruct (truthy (Some (generated sdk (captured tr) s))) eqn:Htr.
    + right. exists (generated sdk (captured tr) s), b.
      split; [by apply truthy_Some|]. split; [by rewrite Hmap, Hsame|].
      split; [done|]. destruct tr as [c i]. simpl in *. by subst.
    + left. by rewrite Hmap.
  - exists tr. rewrite Hheap, Hmap. done.
Qed.

Lemma bootstrap_settled s req :
  method req = POST →
  (connect_ok sdk (server s) = false ∧ streamable (final (bootstrap sdk req s)) = streamable s)
  ∨ (connect_ok sdk (server s) = true
     ∧ settled sdk (streamable s) (length (heap s)) req (final (bootstrap sdk req s))).
Proof.
  intros Hm. unfold bootstrap, bind.
  destruct (setupSession_run sdk s (session_header req))
    as (s1 & E & Hm1 & Hh1 & Hc1 & _).
  rewrite E. destruct (connect_ok sdk (server s)); [|by left].
  right. split; [done|].
  assert (settled sdk (streamable s) (length (heap s)) req s1) as H1.
  { split.
    - rewrite Hc1. apply elem_of_app. right. by apply list_elem_of_singleton.
    - eexists. split; [rewrite Hh1; apply fresh_lookup|]. split; [done|]. by left. }
  destruct (isInitializeRequest sdk (body req)).
  - by apply handleRequest_settled.
  - pose proof (handleRequest_settled _ _ req Fresh (Some synthesizedInitialize) s1 Hm H1)
      as H2.
    destruct (handleRequest sdk (length (heap s)) req Fresh (Some synthesizedInitialize) s1)
      as [[] s2|s2]; [|done].
    by apply (handleRequest_settled _ _ req Written).
Qed.

End Atomicity.

(** C8: [setupSession] never writes the session map. In every state the
    server reaches, a POST without a matching entry leaves the map either
    as it was, with no entry for the transport it may have created, or
    with exactly one more entry, written when that transport initialized:
    the entry is keyed by the transport's [sessionId], holds the transport,
    and the transport is connected to the server. When [server.connect]
    throws the map is as it was. *)
Theorem registration_atomic (sdk : Sdk) (env : option string)
    (req : Request) (s : State) :
  sdk_contract sdk →
  reachable sdk env s →
  method req = POST →
  session_header req = None
  ∨ (∃ sid, session_header req = Some sid ∧ streamable s !! sid = None) →
  (∀ sessionId, streamable (final (setupSession sdk sessionId s)) = streamable s)
  ∧ (connect_ok sdk (server s) = false →
     streamable (final (app sdk env req s)) = streamable s)
  ∧ ((streamable (final (app sdk env req s)) = streamable s
      ∧ ∀ id, streamable (final (app sdk env req s)) !! id ≠ Some (length (heap s)))
     ∨ (∃ sid tr b, sid ≠ ""
         ∧ streamable (final (app sdk env req s))
           = <[sid := length (heap s)]> (streamable s)
         ∧ streamable (final (app sdk env req s)) !! sid = Some (length (heap s))
         ∧ heap (final (app sdk env req s)) !! length (heap s) = Some tr
         ∧ t_sessionId tr = Some sid
         ∧ length (heap s) ∈ connected (server (final (app sdk env req s)))
         ∧ reaction sdk {| captured := session_header req; t_sessionId := None |} req b
           = Initializes)).
Proof.
  intros Hc Hreach Hm Hmiss.
  pose proof (reachable_bound sdk env Hc s Hreach) as Hb.
  assert (∀ id, streamable s !! id ≠ Some (length (heap s))) as Hnew.
  { intros id Hl. pose proof (bound_allocated s id _ Hb Hl). lia. }
  split.
  { intros sessionId.
    destruct (setupSession_run sdk s sessionId) as (s1 & E & Hm1 & _).
    rewrite E. by destruct (connect_ok sdk (server s)). }
  unfold app. rewrite Hm.
  destruct (post_branches sdk env s req)
    as [(sid & t & Hh & _ & Hl & _)|[(sid & _ & _ & _ & ->)
       |[(sid & _ & _ & _ & _ & _ & ->)|[_ ->]]]].
  - destruct Hmiss as [Hnone | (sid' & Hh' & Hl')]; congruence.
  - simpl. split; [done|]. left. done.
  - simpl. split; [done|]. left. done.
  - destruct (bootstrap_settled sdk Hc s req Hm)
      as [[Hfail Hsame] | (Hok & Hin & tr & Ht & _ & Hreg)].
    + split; [done|]. left. split; [done|]. by rewrite Hsame.
    + split; [congruence|].
      destruct Hreg as [Hsame | (sid & b & Hne & Hmap & Hsid & Hr)].
      * left. split; [done|]. by rewrite Hsame.
      * right. exists sid, tr, b. split; [done|]. split; [done|].
        split; [by rewrite Hmap, lookup_insert_eq|]. done.
Qed.

Lemma registration_atomic_witness :
  (∀ sessionId,
     streamable (final (setupSession Reference.sdk sessionId Reference.oneSession))
     = streamable Reference.oneSession)
  ∧ size (streamable (final (app Reference.sdk None
            (Reference.request POST (Some "zz") Reference.listToolsBody)
            Reference.oneSession))) = 2.
Proof.
  destruct (registration_atomic Reference.sdk None
              (Reference.request POST (Some "zz") Reference.listToolsBody)
              Reference.oneSession) as (Hsetup & _ & _).
  - exact ReferenceFacts.reference_contract.
  - apply reach_request, reach_initial.
  - reflexivity.
  - right. exists "zz". split; [reflexivity | vm_compute; reflexivity].
  - split; [exact Hsetup | vm_compute; reflexivity].
Defined.

(** * Further properties of the program *)

(** ** Configuration *)

(** X1: strict-client mode is on exactly when [PROPER_404_CLIENT] is set to a
    non-empty string, whatever the string says: ["false"] and ["0"] turn it
    on as well. *)
Theorem strict_mode_iff_env_nonempty (env : option string) :
  (proper404Client env = true ↔ ∃ v, env = Some v ∧ v ≠ "")
  ∧ (proper404Client env = false ↔ env = None ∨ env = Some "")
  ∧ proper404Client (Some "false") = true
  ∧ proper404Client (Some "0") = true.
Proof.
  unfold proper404Client. rewrite orb_false_r.
  split; [|split; [|done]].
  - split.
    + apply truthy_inv.
    + intros (v & -> & Hv). by apply truthy_Some.
  - destruct env as [v|]; [|by split; [left|]].
    destruct (decide (v = "")) as [->|Hne].
    + split; [by right | done].
    + apply truthy_Some in Hne. rewrite Hne. split; [done|].
      intros [|[= ->]]; [done|]. discriminate.
Qed.

(** ** What one request does *)

Section Requests.

Context (sdk : Sdk) (PROPER_404_CLIENT : option string).

Lemma setupSession_throws s sessionId :
  connect_ok sdk (server s) = false →
  setupSession sdk sessionId s
  = Thrown (set_heap (fun h => (h ++ [ {| captured := sessionId;
                                           t_sessionId := None |} ])%list) s).
Proof. intros Hc. unfold setupSession, server_connect. run. simpl. by rewrite Hc. Qed.

(** [server.connect] throws: the handler throws with it. *)
Lemma bootstrap_refused s req :
  connect_ok sdk (server s) = false →
  bootstrap sdk req s
  = Thrown (set_heap (fun h => (h ++ [ {| captured := session_header req;
                                           t_sessionId := None |} ])%list) s).
Proof.
  intros Hc. unfold bootstrap, bind. by rewrite (setupSession_throws s _ Hc).
Qed.

(** The synthesized branch: the second [handleRequest] is handed the
    response the first one has written, and throws. *)
Lemma bootstrap_synthesized_throws s req :
  connect_ok sdk (server s) = true →
  isInitializeRequest sdk (body req) = false →
  ∃ s', bootstrap sdk req s = Thrown s'.
Proof.
  intros Hc Hshape. unfold bootstrap, bind.
  destruct (setupSession_run sdk s (session_header req)) as (s1 & E & _).
  rewrite E, Hc, Hshape.
  destruct (handleRequest sdk (length (heap s)) req Fresh (Some synthesizedInitialize) s1)
    as [[] s2|s2]; [|by eexists].
  rewrite handleRequest_written. by eexists.
Qed.


Lemma bootstrap_heap_length s req :
  length (heap (final (bootstrap sdk req s))) = S (length (heap s)).
Proof.
  unfold bootstrap, bind.
  destruct (setupSession_run sdk s (session_header req)) as (s1 & E & _ & Hh & _).
  assert (length (heap s1) = S (length (heap s))) as H1.
  { rewrite Hh, length_app. simpl. lia. }
  rewrite E. destruct (connect_ok sdk (server s)); simpl; [|done].
  destruct (isInitializeRequest sdk (body req)).
  - by rewrite handleRequest_heap_length.
  - pose proof (handleRequest_heap_length sdk s1 (length (heap s)) req Fresh
                  (Some synthesizedInitialize)) as H2.
    destruct (handleRequest sdk (length (heap s)) req Fresh (Some synthesizedInitialize) s1)
      as [[] s2|s2]; simpl in *; by rewrite H2.
Qed.

Lemma bootstrap_connected s req :
  connected (server (final (bootstrap sdk req s)))
  = (connected (server s)
     ++ if connect_ok sdk (server s) then [length (heap s)] else [])%list.
Proof.
  unfold bootstrap, bind.
  destruct (setupSession_run sdk s (session_header req)) as (s1 & E & _ & _ & Hc & _).
  rewrite E. destruct (connect_ok sdk (server s)); simpl; [|by rewrite Hc, app_nil_r].
  destruct (isInitializeRequest sdk (body req)).
  - by rewrite handleRequest_connected.
  - pose proof (handleRequest_connected sdk s1 (length (heap s)) req Fresh
                  (Some synthesizedInitialize)) as H2.
    destruct (handleRequest sdk (length (heap s)) req Fresh (Some synthesizedInitialize) s1)
      as [[] s2|s2]; simpl in *; by rewrite H2.
Qed.

(** The calls and answers of a POST, branch by branch. *)
Lemma post_events s req :
  trace (final (post sdk PROPER_404_CLIENT req s))
  = (trace s ++
      match session_header req with
      | Some sid =>
          if String.eqb sid "" then
            if connect_ok sdk (server s) then delivered sdk (length (heap s)) req else []
          else
            match streamable s !! sid with
            | Some t => [HandleRequest t req (Some (body req))]
            | None =>
                if inherited sid then []
                else if proper404Client PROPER_404_CLIENT
                then [Send 404 ("sessionId " +:+ sid +:+ " not found")]
                else if connect_ok sdk (server s)
                     then delivered sdk (length (heap s)) req else []
            end
      | None => if connect_ok sdk (server s) then delivered sdk (length (heap s)) req else []
      end)%list.
Proof.
  destruct (session_header req) as [sid|] eqn:Hh.
  - destruct (String.eqb_spec sid "") as [->|Hne].
    + rewrite post_bootstrap_absent by (by rewrite Hh). apply bootstrap_trace.
    + destruct (streamable s !! sid) as [t|] eqn:Hl.
      * rewrite (post_reuse sdk _ s req sid t Hh Hl Hne). apply handleRequest_trace.
      * destruct (inherited sid) eqn:Hi.
        { rewrite (post_inherited sdk _ s req sid Hh Hl Hi). simpl. by rewrite app_nil_r. }
        destruct (proper404Client PROPER_404_CLIENT) eqn:Hs.
        -- by rewrite (post_reject sdk _ s req sid Hh Hl Hi Hne Hs).
        -- rewrite post_bootstrap_lenient; [apply bootstrap_trace | | done].
           rewrite Hh. by apply lookup_undefined.
  - rewrite post_bootstrap_absent by (by rewrite Hh). apply bootstrap_trace.
Qed.

End Requests.

(** X2: the decision table of POST, by the calls it makes: a non-empty
    identifier with an entry is handed to the registered transport; a
    non-empty identifier without entry that names a member of
    [Object.prototype] makes the handler throw before anything is called or
    answered; any other non-empty identifier without entry is answered 404
    in strict mode; every other POST (no header, empty header, or such an
    unmatched identifier in lenient mode) creates a transport and, once it
    is connected, calls its [handleRequest] with the payload, after a call
    with the synthesized handshake unless the payload is itself a
    handshake. *)
Theorem post_decision_table (sdk : Sdk) (env : option string) (req : Request) (s : State) :
  method req = POST →
  trace (final (app sdk env req s))
  = (trace s ++
      match session_header req with
      | Some sid =>
          if String.eqb sid "" then
            if connect_ok sdk (server s) then delivered sdk (length (heap s)) req else []
          else
            match streamable s !! sid with
            | Some t => [HandleRequest t req (Some (body req))]
            | None =>
                if inherited sid then []
                else if proper404Client env
                then [Send 404 ("sessionId " +:+ sid +:+ " not found")]
                else if connect_ok sdk (server s)
                     then delivered sdk (length (heap s)) req else []
            end
      | None => if connect_ok sdk (server s) then delivered sdk (length (heap s)) req else []
      end)%list
  ∧ (∀ sid, session_header req = Some sid → streamable s !! sid = None →
       inherited sid = true → app sdk env req s = Thrown s).
Proof.
  intros Hm. unfold app. rewrite Hm. split; [apply post_events|].
  intros sid Hh Hl Hi. by apply post_inherited with sid.
Qed.

Lemma post_decision_table_witness :
  trace (final (app Reference.sdk Reference.strictEnv
                  (Reference.request POST None Reference.listToolsBody)
                  Reference.oneSession))
  = (trace Reference.oneSession
     ++ [HandleRequest 1 (Reference.request POST None Reference.listToolsBody)
           (Some synthesizedInitialize);
         HandleRequest 1 (Reference.request POST None Reference.listToolsBody)
           (Some Reference.listToolsBody)])%list
  ∧ app Reference.sdk None
      (Reference.request POST (Some "toString") Reference.initializeBody)
      Reference.oneSession
    = Thrown Reference.oneSession.
Proof.
  split.
  - apply (post_decision_table Reference.sdk Reference.strictEnv
             (Reference.request POST None Reference.listToolsBody) Reference.oneSession).
    reflexivity.
  - apply (post_decision_table Reference.sdk None
             (Reference.request POST (Some "toString") Reference.initializeBody)
             Reference.oneSession) with "toString"; reflexivity.
Defined.

(** X3: what a request of [/mcp] comes to, by what the handler calls and
    writes. It is answered 404 by the handler itself and nothing else
    happens; or it is handed to one transport in one call of
    [handleRequest]; or, in the synthesized branch of POST, the new
    transport is called twice, with the synthesized handshake and then with
    the payload, and the handler throws. The handler calls and writes
    nothing only when it throws first, and a request is never both answered
    by the handler and handed to a transport, nor handed to two
    transports. *)
Theorem request_answered_or_delegated (sdk : Sdk) (env : option string)
    (req : Request) (s : State) :
  method req ≠ OtherMethod →
  ∃ events, trace (final (app sdk env req s)) = (trace s ++ events)%list
    ∧ ((∃ text, events = [Send 404 text]
          ∧ app sdk env req s = Ok tt (emit (Send 404 text) s))
       ∨ (∃ t b, events = [HandleRequest t req b])
       ∨ (∃ t s', events = [HandleRequest t req (Some synthesizedInitialize);
                            HandleRequest t req (Some (body req))]
            ∧ method req = POST
            ∧ isInitializeRequest sdk (body req) = false
            ∧ app sdk env req s = Thrown s')
       ∨ (events = [] ∧ ∃ s', app sdk env req s = Thrown s')).
Proof.
  intros Hother.
  assert (∀ t b, ∃ events,
            trace (final (handleRequest sdk t req Fresh b s)) = (trace s ++ events)%list
            ∧ ∃ t' b', events = [HandleRequest t' req b']) as Hone.
  { intros t b. eexists. split; [apply handleRequest_trace|]. eauto. }
  unfold app. destruct (method req) eqn:Hm; [| | |done].
  - destruct (post_branches sdk env s req)
      as [(sid & t & _ & _ & _ & ->)|[(sid & _ & _ & _ & ->)
         |[(sid & _ & _ & _ & _ & _ & ->)|[_ ->]]]].
    + destruct (Hone t (Some (body req))) as (ev & E & H). exists ev. split; [done|].
      right. by left.
    + exists []. split; [by rewrite app_nil_r|]. right. right. right. eauto.
    + eexists. split; [reflexivity|]. left. eauto.
    + eexists. split; [apply bootstrap_trace|].
      destruct (connect_ok sdk (server s)) eqn:Hok.
      * unfold delivered. destruct (isInitializeRequest sdk (body req)) eqn:Hshape.
        -- right. left. eauto.
        -- right. right. left.
           destruct (bootstrap_synthesized_throws sdk s req Hok Hshape) as (s' & E).
           exists (length (heap s)), s'. done.
      * right. right. right. split; [done|]. rewrite (bootstrap_refused sdk s req Hok).
        eauto.
  - destruct (handleSessionRequest_branches sdk s req)
      as [[_ ->]|[(sid & t & _ & _ & _ & ->)|(sid & _ & _ & _ & ->)]].
    + eexists. split; [reflexivity|]. left. eauto.
    + destruct (Hone t None) as (ev & E & H). exists ev. split; [done|]. right. by left.
    + exists []. split; [by rewrite app_nil_r|]. right. right. right. eauto.
  - destruct (handleSessionRequest_branches sdk s req)
      as [[_ ->]|[(sid & t & _ & _ & _ & ->)|(sid & _ & _ & _ & ->)]].
    + eexists. split; [reflexivity|]. left. eauto.
    + destruct (Hone t None) as (ev & E & H). exists ev. split; [done|]. right. by left.
    + exists []. split; [by rewrite app_nil_r|]. right. right. right. eauto.
Qed.

Lemma request_answered_or_delegated_witness :
  ∃ events,
    trace (final (app Reference.sdk Reference.strictEnv
                    (Reference.request POST (Some "zz") Reference.listToolsBody)
                    Reference.oneSession))
    = (trace Reference.oneSession ++ events)%list
    ∧ events ≠ [].
Proof.
  destruct (request_answered_or_delegated Reference.sdk Reference.strictEnv
              (Reference.request POST (Some "zz") Reference.listToolsBody)
              Reference.oneSession) as (events & E & H).
  - discriminate.
  - exists events. split; [exact E|].
    destruct H as [(text & -> & _)|[(t & b & ->)|[(t & s' & -> & _)|[_ [s' H]]]]];
      discriminate.
Defined.

(** X4: transports are created by POST only, one per request, and exactly
    when the request carries no usable identifier (no header, or an empty
    one) or, in lenient mode, an identifier under which the session object
    has nothing, neither an entry nor an inherited member;
    [server.connect] is called for that transport and for no other. GET,
    DELETE, a POST for a registered identifier, a POST under the name of a
    member of [Object.prototype] and a POST rejected in strict mode create
    nothing. *)
Theorem transport_creation (sdk : Sdk) (env : option string) (req : Request) (s : State) :
  let creates :=
    match method req with
    | POST => negb (truthy (session_header req))
              || (negb (defined (lookup_transport (session_header req) s))
                  && negb (proper404Client env))
    | _ => false
    end in
  length (heap (final (app sdk env req s)))
  = (if creates then S (length (heap s)) else length (heap s))
  ∧ connected (server (final (app sdk env req s)))
    = (connected (server s)
       ++ if creates && connect_ok sdk (server s) then [length (heap s)] else [])%list
  ∧ (∀ sid, session_header req = Some sid → inherited sid = true → creates = false).
Proof.
  assert (∀ sid, session_header req = Some sid → inherited sid = true →
            truthy (session_header req) = true
            ∧ defined (lookup_transport (session_header req) s) = true) as Hinh.
  { intros sid Hh Hi. rewrite Hh. split; [by apply truthy_Some, inherited_truthy|].
    unfold lookup_transport. rewrite Hi. by destruct (streamable s !! sid). }
  unfold app. destruct (method req); simpl.
  - split; [|split].
    + destruct (post_branches sdk env s req)
        as [(sid & t & Hh & Hne & Hl & ->)|[(sid & Hh & Hl & Hi & ->)
           |[(sid & Hh & Hne & Hl & Hi & Hs & ->)|[Hc ->]]]].
      * apply truthy_Some in Hne. rewrite Hh, (lookup_own s sid t Hl), Hne. simpl.
        by rewrite handleRequest_heap_length.
      * destruct (Hinh sid Hh Hi) as [-> ->]. done.
      * apply truthy_Some in Hne. rewrite Hh, (lookup_undefined s sid Hl Hi), Hne, Hs. done.
      * rewrite bootstrap_heap_length.
        destruct Hc as [-> | [-> ->]]; simpl; [done|]. by rewrite orb_true_r.
    + destruct (post_branches sdk env s req)
        as [(sid & t & Hh & Hne & Hl & ->)|[(sid & Hh & Hl & Hi & ->)
           |[(sid & Hh & Hne & Hl & Hi & Hs & ->)|[Hc ->]]]].
      * apply truthy_Some in Hne. rewrite Hh, (lookup_own s sid t Hl), Hne. simpl.
        by rewrite handleRequest_connected, app_nil_r.
      * destruct (Hinh sid Hh Hi) as [-> ->]. simpl. by rewrite app_nil_r.
      * apply truthy_Some in Hne. rewrite Hh, (lookup_undefined s sid Hl Hi), Hne, Hs.
        simpl. by rewrite app_nil_r.
      * rewrite bootstrap_connected.
        destruct Hc as [-> | [-> ->]]; simpl; [done|]. by rewrite orb_true_r.
    + intros sid Hh Hi. destruct (Hinh sid Hh Hi) as [-> ->]. done.
  - destruct (handleSessionRequest_branches sdk s req)
      as [[_ ->]|[(sid & t & _ & _ & _ & ->)|(sid & _ & _ & _ & ->)]]; simpl;
      rewrite ?handleRequest_heap_length, ?handleRequest_connected, app_nil_r; done.
  - destruct (handleSessionRequest_branches sdk s req)
      as [[_ ->]|[(sid & t & _ & _ & _ & ->)|(sid & _ & _ & _ & ->)]]; simpl;
      rewrite ?handleRequest_heap_length, ?handleRequest_connected, app_nil_r; done.
  - by rewrite app_nil_r.
Qed.

Section Persistence.

Context (sdk : Sdk) (PROPER_404_CLIENT : option string).
Hypothesis contract : sdk_contract sdk.

Lemma handleRequest_session_kept s t req res b t' tr' :
  heap s !! t' = Some tr' → is_Some (t_sessionId tr') →
  heap (final (handleRequest sdk t req res b s)) !! t' = Some tr'.
Proof.
  intros Ht' [sid Hsid]. destruct res; [|done].
  destruct (heap s !! t) as [tr|] eqn:Ht.
  - rewrite (handleRequest_run _ _ _ _ _ _ Ht). destruct (reaction sdk tr req b) eqn:Hr.
    + destruct (initialize_run sdk (emit (HandleRequest t req b) s) t tr Ht)
        as (s' & E & _ & Hh & _). rewrite E. simpl. rewrite Hh. simpl.
      apply (init_once _ contract) in Hr.
      rewrite list_lookup_alter_ne; [done|]. intros ->. congruence.
    + destruct (onclose_frame (emit (HandleRequest t req b) s) t) as (Hh & _).
      by rewrite Hh.
    + done.
  - unfold handleRequest. run. simpl. by rewrite Ht.
Qed.

Lemma bootstrap_session_kept s req t' tr' :
  heap s !! t' = Some tr' → is_Some (t_sessionId tr') →
  heap (final (bootstrap sdk req s)) !! t' = Some tr'.
Proof.
  intros Ht' Hsid. unfold bootstrap, bind.
  destruct (setupSession_run sdk s (session_header req)) as (s1 & E & _ & Hh & _).
  assert (heap s1 !! t' = Some tr') as H1.
  { rewrite Hh. by apply lookup_app_l_Some. }
  rewrite E. destruct (connect_ok sdk (server s)); simpl; [|done].
  destruct (isInitializeRequest sdk (body req)).
  - by apply handleRequest_session_kept.
  - pose proof (handleRequest_session_kept s1 (length (heap s)) req Fresh
                  (Some synthesizedInitialize) t' tr' H1 Hsid) as H2.
    destruct (handleRequest sdk (length (heap s)) req Fresh (Some synthesizedInitialize) s1)
      as [[] s2|s2]; simpl in *; done.
Qed.

End Persistence.

(** X5: once a transport has a session identifier, no request and no close
    event changes it (nor the identifier its generator is bound to),
    provided transports initialize once. *)
Theorem session_identifier_immutable (sdk : Sdk) (env : option string)
    (req : Request) (s : State) (t : TransportRef) (tr : Transport) :
  sdk_contract sdk →
  heap s !! t = Some tr →
  is_Some (t_sessionId tr) →
  heap (final (app sdk env req s)) !! t = Some tr
  ∧ ∀ t', heap (final (onclose t' s)) !! t = Some tr.
Proof.
  intros Hc Ht Hsid. split.
  - unfold app. destruct (method req); [| | |done].
    + destruct (post_branches sdk env s req)
        as [(sid & t0 & _ & _ & _ & ->)|[(sid & _ & _ & _ & ->)
           |[(sid & _ & _ & _ & _ & _ & ->)|[_ ->]]]].
      * by apply handleRequest_session_kept.
      * done.
      * done.
      * by apply bootstrap_session_kept.
    + destruct (handleSessionRequest_branches sdk s req)
        as [[_ ->]|[(sid & t0 & _ & _ & _ & ->)|(sid & _ & _ & _ & ->)]];
        [done | by apply handleRequest_session_kept | done].
    + destruct (handleSessionRequest_branches sdk s req)
        as [[_ ->]|[(sid & t0 & _ & _ & _ & ->)|(sid & _ & _ & _ & ->)]];
        [done | by apply handleRequest_session_kept | done].
  - intros t'. destruct (onclose_frame s t') as (Hh & _). by rewrite Hh.
Qed.

Lemma session_identifier_immutable_witness :
  heap (final (app Reference.sdk None
                 (Reference.request POST (Some "abc") Reference.initializeBody)
                 Reference.twoSessions)) !! 0
  = Some {| captured := Some "abc"; t_sessionId := Some "abc" |}
  ∧ ∀ t', heap (final (onclose t' Reference.twoSessions)) !! 0
          = Some {| captured := Some "abc"; t_sessionId := Some "abc" |}.
Proof.
  apply (session_identifier_immutable Reference.sdk None
           (Reference.request POST (Some "abc") Reference.initializeBody)
           Reference.twoSessions 0).
  - exact ReferenceFacts.reference_contract.
  - reflexivity.
  - by eexists.
Defined.



(** ** Invariants of the session map *)

(** X7: in every state the server reaches: no entry is keyed by the empty
    string; every entry holds a transport that exists, was connected to the
    server and has the entry's key as its [sessionId]; hence no transport is
    registered under two identifiers. *)
Theorem registry_invariant (sdk : Sdk) (env : option string) (s : State) :
  sdk_contract sdk →
  reachable sdk env s →
  streamable s !! "" = None
  ∧ ∀ id t, streamable s !! id = Some t →
      t < length (heap s)
      ∧ t ∈ connected (server s)
      ∧ (∃ tr, heap s !! t = Some tr ∧ t_sessionId tr = Some id)
      ∧ ∀ id', streamable s !! id' = Some t → id' = id.
Proof.
  intros Hc Hreach.
  pose proof (reachable_bound sdk env Hc s Hreach) as Hb.
  pose proof (reachable_consistent sdk env s Hreach) as [Hempty Hconn _ _].
  split; [done|]. intros id t Hl.
  split; [by eapply bound_allocated|]. split; [by eapply Hconn|].
  split; [by apply Hb|].
  intros id' Hl'. destruct (Hb id t Hl) as (tr & Ht & Hid).
  destruct (Hb id' t Hl') as (tr' & Ht' & Hid'). congruence.
Qed.

Lemma registry_invariant_witness :
  streamable Reference.recreated !! "" = None
  ∧ ∀ id t, streamable Reference.recreated !! id = Some t →
      t < length (heap Reference.recreated)
      ∧ t ∈ connected (server Reference.recreated)
      ∧ (∃ tr, heap Reference.recreated !! t = Some tr ∧ t_sessionId tr = Some id)
      ∧ ∀ id', streamable Reference.recreated !! id' = Some t → id' = id.
Proof.
  apply (registry_invariant Reference.sdk None Reference.recreated).
  - exact ReferenceFacts.reference_contract.
  - apply reach_request, reach_request, reach_request, reach_initial.
Defined.

(** ** Which entries a request can add *)

Section NewEntries.

Context (sdk : Sdk) (PROPER_404_CLIENT : option string).
Hypothesis contract : sdk_contract sdk.

(** A transport that has a session adds no entry, whatever the request. *)
Lemma handleRequest_registered_shrinks s t tr req res b k t' :
  heap s !! t = Some tr → is_Some (t_sessionId tr) →
  streamable (final (handleRequest sdk t req res b s)) !! k = Some t' →
  streamable s !! k = Some t'.
Proof.
  intros Ht [sid Hsid] Hl. destruct res; [|done].
  rewrite (handleRequest_run _ _ _ _ _ _ Ht) in Hl.
  destruct (reaction sdk tr req b) eqn:Hr.
  - apply (init_once _ contract) in Hr. congruence.
  - destruct (onclose_frame (emit (HandleRequest t req b) s) t) as (_ & _ & _ & _ & Hsub & _).
    by apply Hsub in Hl.
  - done.
Qed.

(** The map after the last two branches of POST: as before, or with the
    one entry of the new transport under the identifier its generator
    returns. *)
Lemma bootstrap_map s req :
  method req = POST →
  streamable (final (bootstrap sdk req s)) = streamable s
  ∨ streamable (final (bootstrap sdk req s))
    = <[generated sdk (session_header req) s := length (heap s)]> (streamable s).
Proof.
  intros Hm. unfold bootstrap, bind.
  destruct (setupSession_run sdk s (session_header req))
    as (s1 & E & Hm1 & Hh1 & _ & _ & Hu1 & _).
  rewrite E. destruct (connect_ok sdk (server s)); simpl; [|by left].
  assert (heap s1 !! length (heap s)
          = Some {| captured := session_header req; t_sessionId := None |}) as Ht1.
  { rewrite Hh1. apply fresh_lookup. }
  assert (∀ b,
            streamable (final (handleRequest sdk (length (heap s)) req Fresh b s1))
            = streamable s
            ∨ streamable (final (handleRequest sdk (length (heap s)) req Fresh b s1))
              = <[generated sdk (session_header req) s := length (heap s)]> (streamable s))
    as Hstep.
  { intros b.
    destruct (handleRequest_post sdk contract s1 _ _ req b Hm Ht1)
      as (s' & E' & _ & _ & [(_ & _ & Hmap & _) | (_ & Hmap & _)]);
      rewrite E'; simpl in *; rewrite Hmap, Hm1; [|by left].
    rewrite (generated_same sdk s1 s _ Hu1).
    destruct (truthy (Some (generated sdk (session_header req) s))); [by right | by left]. }
  destruct (isInitializeRequest sdk (body req)); [by apply Hstep|].
  specialize (Hstep (Some synthesizedInitialize)).
  destruct (handleRequest sdk (length (heap s)) req Fresh (Some synthesizedInitialize) s1)
    as [[] s2|s2]; simpl in *; done.
Qed.

Lemma app_new_entry s req k t :
  reachable sdk PROPER_404_CLIENT s →
  streamable (final (app sdk PROPER_404_CLIENT req s)) !! k = Some t →
  streamable s !! k = Some t
  ∨ (method req = POST
     ∧ k = generated sdk (session_header req) s
     ∧ t = length (heap s)
     ∧ (truthy (session_header req) = false
        ∨ (lookup_transport (session_header req) s = Undefined
           ∧ proper404Client PROPER_404_CLIENT = false))).
Proof.
  intros Hreach Hl.
  pose proof (reachable_bound sdk PROPER_404_CLIENT contract s Hreach) as Hb.
  assert (∀ sid t0 b, streamable s !! sid = Some t0 →
            streamable (final (handleRequest sdk t0 req Fresh b s)) !! k = Some t →
            streamable s !! k = Some t) as Hlive.
  { intros sid t0 b Hl0 Hl'. destruct (Hb sid t0 Hl0) as (tr & Ht & Hsid).
    eapply handleRequest_registered_shrinks; [exact Ht | by eexists | exact Hl']. }
  unfold app in Hl. destruct (method req) eqn:Hm; [| | |by left].
  - destruct (post_branches sdk PROPER_404_CLIENT s req)
      as [(sid & t0 & _ & _ & Hl0 & Hp)|[(sid & _ & _ & _ & Hp)
         |[(sid & _ & _ & _ & _ & _ & Hp)|[Hcond Hp]]]];
      rewrite Hp in Hl.
    + left. by eapply Hlive.
    + by left.
    + by left.
    + destruct (bootstrap_map s req Hm) as [Hsame | Hins]; [left; by rewrite <- Hsame|].
      rewrite Hins in Hl. apply lookup_insert_Some in Hl as [[<- <-]|[_ Hl]]; [|by left].
      right. done.
  - destruct (handleSessionRequest_branches sdk s req)
      as [[_ Hp]|[(sid & t0 & _ & _ & Hl0 & Hp)|(sid & _ & _ & _ & Hp)]];
      rewrite Hp in Hl; [by left | | by left].
    left. by eapply Hlive.
  - destruct (handleSessionRequest_branches sdk s req)
      as [[_ Hp]|[(sid & t0 & _ & _ & Hl0 & Hp)|(sid & _ & _ & _ & Hp)]];
      rewrite Hp in Hl; [by left | | by left].
    left. by eapply Hlive.
Qed.

End NewEntries.

(** X8: in every state the server reaches, the only entry a request can add
    to the session map is the one of the transport a POST has just created,
    keyed by the identifier that transport's generator returns (the
    request's identifier when non-empty, the next random UUID otherwise);
    GET and DELETE add none, and no request redirects an existing key to
    an older transport. *)
Theorem entries_added_by_request (sdk : Sdk) (env : option string)
    (req : Request) (s : State) (k : string) (t : TransportRef) :
  sdk_contract sdk →
  reachable sdk env s →
  streamable (final (app sdk env req s)) !! k = Some t →
  streamable s !! k = Some t
  ∨ (method req = POST
     ∧ k = generated sdk (session_header req) s
     ∧ t = length (heap s)).
Proof.
  intros Hc Hreach Hl.
  destruct (app_new_entry sdk env Hc s req k t Hreach Hl) as [? | (? & ? & ? & _)];
    [by left | by right].
Qed.

Lemma entries_added_by_request_witness :
  streamable Reference.oneSession !! "zz" = Some 1
  ∨ (method (Reference.request POST (Some "zz") Reference.listToolsBody) = POST
     ∧ "zz" = generated Reference.sdk
                (session_header (Reference.request POST (Some "zz") Reference.listToolsBody))
                Reference.oneSession
     ∧ 1 = length (heap Reference.oneSession)).
Proof.
  apply (entries_added_by_request Reference.sdk None
           (Reference.request POST (Some "zz") Reference.listToolsBody)
           Reference.oneSession "zz" 1).
  - exact ReferenceFacts.reference_contract.
  - apply reach_request, reach_initial.
  - vm_compute. reflexivity.
Defined.

(** X9: in strict-client mode a client cannot choose the identifier of a
    session: in every state the server reaches, the only key a request can
    add to the session map is the next random UUID. *)
Theorem strict_mode_keys_are_random (sdk : Sdk) (env : option string)
    (req : Request) (s : State) (k : string) (t : TransportRef) :
  sdk_contract sdk →
  reachable sdk env s →
  proper404Client env = true →
  streamable (final (app sdk env req s)) !! k = Some t →
  streamable s !! k = Some t ∨ k = randomUUID sdk (uuid_calls s).
Proof.
  intros Hc Hreach Hstrict Hl.
  destruct (app_new_entry sdk env Hc s req k t Hreach Hl)
    as [? | (_ & -> & _ & [Habs | [_ Hlen]])]; [by left | | congruence].
  right. by apply generated_absent.
Qed.

Lemma strict_mode_keys_are_random_witness :
  streamable initial !! "00000000-0000-4000-8000-0" = Some 0
  ∨ "00000000-0000-4000-8000-0" = randomUUID Reference.sdk (uuid_calls initial).
Proof.
  apply (strict_mode_keys_are_random Reference.sdk Reference.strictEnv
           (Reference.request POST (Some "") Reference.initializeBody)
           initial "00000000-0000-4000-8000-0" 0).
  - exact ReferenceFacts.reference_contract.
  - apply reach_initial.
  - reflexivity.
  - vm_compute. reflexivity.
Defined.

(** ** Close events *)

Lemma unregistered_size (tr : Transport) (m : gmap string TransportRef) :
  (size (unregistered tr m) ≤ size m)%nat.
Proof.
  unfold unregistered. destruct (truthy (t_sessionId tr)); [|done].
  apply map_subseteq_size, delete_subseteq.
Qed.

Lemma closed_map_size (s : State) (tr : Transport) :
  (size (closed_map s tr) ≤ size (unregistered tr (streamable s)))%nat.
Proof.
  unfold closed_map. destruct (current (server s)) as [c|]; [|done].
  destruct (heap s !! c); [apply unregistered_size | done].
Qed.

Lemma closed_map_emit (s : State) (tr : Transport) (e : Event) :
  closed_map (emit e s) tr = closed_map s tr.
Proof. reflexivity. Qed.

Lemma closed_map_comm (s : State) (tr1 tr2 : Transport) :
  unregistered tr2 (closed_map s tr1) = unregistered tr1 (closed_map s tr2).
Proof.
  unfold closed_map. destruct (current (server s)) as [c|].
  - destruct (heap s !! c) as [held|].
    + rewrite (unregistered_comm tr2 held), (unregistered_comm tr2 tr1).
      by rewrite (unregistered_comm held tr1).
    + apply unregistered_comm.
  - apply unregistered_comm.
Qed.

Lemma state_eq (s s' : State) :
  streamable s = streamable s' → heap s = heap s' →
  connected (server s) = connected (server s') →
  current (server s) = current (server s') →
  uuid_calls s = uuid_calls s' → trace s = trace s' →
  s = s'.
Proof.
  destruct s as [m h [c cu] u tr], s' as [m' h' [c' cu'] u' tr']. simpl.
  intros -> -> -> -> -> ->. done.
Qed.

(** X10: the close callback deletes by identifier, not by transport: in
    every state the server reaches it returns and removes the entry keyed
    by its transport's [sessionId] whichever transport the entry holds, so
    the map loses at least that entry; it adds and redirects none. After a
    DELETE and a lenient re-creation under the same identifier, a second
    close event of the old transport removes the new session. *)
Theorem close_removes_by_identifier (sdk : Sdk) (env : option string)
    (s : State) (t : TransportRef) (tr : Transport) (sid : string) (t' : TransportRef) :
  reachable sdk env s →
  heap s !! t = Some tr →
  t_sessionId tr = Some sid →
  streamable s !! sid = Some t' →
  ∃ s', onclose t s = Ok tt s'
    ∧ streamable s' !! sid = None
    ∧ (size (streamable s') < size (streamable s))%nat
    ∧ (∀ k x, streamable s' !! k = Some x → streamable s !! k = Some x)
    ∧ heap s' = heap s.
Proof.
  intros Hreach Ht Hsid Hl.
  pose proof (reachable_consistent sdk env s Hreach) as [Hempty _ _ _].
  assert (sid ≠ "") as Hne by (intros ->; congruence).
  destruct (onclose_run s t tr Ht) as (s' & E & Hm & Hh & _).
  { intros c. by apply (reachable_held sdk env). }
  exists s'. split; [done|]. rewrite Hm.
  split; [by apply closed_map_own|]. split; [|split; [|done]].
  - pose proof (closed_map_size s tr) as Hle.
    rewrite (unregistered_own tr _ sid Hsid Hne) in Hle.
    rewrite map_size_delete_Some in Hle by (by eexists).
    assert (size (streamable s) ≠ 0) as Hpos.
    { intros H0. apply map_size_empty_inv in H0. rewrite H0 in Hl.
      by rewrite lookup_empty in Hl. }
    lia.
  - intros k x. apply closed_map_Some.
Qed.

Lemma close_removes_by_identifier_witness :
  streamable Reference.recreated !! "abc" = Some 1
  ∧ ∃ s', onclose 0 Reference.recreated = Ok tt s'
      ∧ streamable s' !! "abc" = None
      ∧ (size (streamable s') < size (streamable Reference.recreated))%nat
      ∧ (∀ k x, streamable s' !! k = Some x → streamable Reference.recreated !! k = Some x)
      ∧ heap s' = heap Reference.recreated.
Proof.
  split; [vm_compute; reflexivity|].
  apply (close_removes_by_identifier Reference.sdk None Reference.recreated 0
           {| captured := Some "abc"; t_sessionId := Some "abc" |} "abc" 1).
  - apply reach_request, reach_request, reach_request, reach_initial.
  - reflexivity.
  - reflexivity.
  - vm_compute. reflexivity.
Defined.

(** X11: in every state the server reaches, close events of two
    transports can fire in either order: both orders return and end in the
    same state, in which the server holds no transport and neither
    transport's identifier has an entry. *)
Theorem close_events_commute (sdk : Sdk) (env : option string)
    (s : State) (t1 t2 : TransportRef) (tr1 tr2 : Transport) :
  reachable sdk env s →
  heap s !! t1 = Some tr1 →
  heap s !! t2 = Some tr2 →
  (onclose t1 ;;! onclose t2) s = (onclose t2 ;;! onclose t1) s
  ∧ ∃ s', (onclose t1 ;;! onclose t2) s = Ok tt s'
      ∧ streamable s' = unregistered tr2 (closed_map s tr1)
      ∧ current (server s') = None
      ∧ (∀ sid, t_sessionId tr1 = Some sid ∨ t_sessionId tr2 = Some sid →
           streamable s' !! sid = None).
Proof.
  intros Hreach H1 H2.
  pose proof (reachable_consistent sdk env s Hreach) as [Hempty _ _ _].
  assert (∀ c, current (server s) = Some c → is_Some (heap s !! c)) as Hheld.
  { intros c. by apply (reachable_held sdk env). }
  assert (∀ ta tb tra trb, heap s !! ta = Some tra → heap s !! tb = Some trb →
            ∃ s', (onclose ta ;;! onclose tb) s = Ok tt s'
              ∧ streamable s' = unregistered trb (closed_map s tra)
              ∧ heap s' = heap s
              ∧ connected (server s') = connected (server s)
              ∧ current (server s') = None
              ∧ uuid_calls s' = uuid_calls s
              ∧ trace s' = trace s) as Hseq.
  { intros ta tb tra trb Ha Hb. unfold bind.
    destruct (onclose_run s ta tra Ha Hheld) as (s1 & E1 & Hm1 & Hh1 & Hc1 & Hcu1 & Hu1 & Htr1).
    rewrite E1.
    destruct (onclose_run s1 tb trb) as (s2 & E2 & Hm2 & Hh2 & Hc2 & Hcu2 & Hu2 & Htr2).
    { by rewrite Hh1. }
    { intros c Hc. congruence. }
    exists s2. split; [done|]. split.
    - rewrite Hm2. unfold closed_map at 1. by rewrite Hcu1, Hm1.
    - split; [congruence|]. split; [congruence|]. split; [done|]. split; congruence. }
  destruct (Hseq t1 t2 tr1 tr2 H1 H2) as (sa & Ea & Hma & Hha & Hca & Hcua & Hua & Htra).
  destruct (Hseq t2 t1 tr2 tr1 H2 H1) as (sb & Eb & Hmb & Hhb & Hcb & Hcub & Hub & Htrb).
  split.
  - rewrite Ea, Eb. f_equal. apply state_eq; try congruence.
    rewrite Hma, Hmb. apply closed_map_comm.
  - exists sa. split; [done|]. split; [done|]. split; [done|].
    intros sid [Hsid | Hsid]; rewrite Hma.
    + apply unregistered_None. by apply closed_map_own.
    + rewrite closed_map_comm. apply unregistered_None. by apply closed_map_own.
Qed.

Lemma close_events_commute_witness :
  (onclose 0 ;;! onclose 1) Reference.threeSessions
  = (onclose 1 ;;! onclose 0) Reference.threeSessions
  ∧ ∃ s', (onclose 0 ;;! onclose 1) Reference.threeSessions = Ok tt s'
      ∧ streamable s' !! "abc" = None
      ∧ streamable s' !! "xyz" = None
      ∧ current (server s') = None.
Proof.
  destruct (close_events_commute Reference.sdk None Reference.threeSessions 0 1
              {| captured := Some "abc"; t_sessionId := Some "abc" |}
              {| captured := Some "xyz"; t_sessionId := Some "xyz" |})
    as (Heq & s' & E & _ & Hcur & Hgone).
  - apply reach_request, reach_request, reach_request, reach_initial.
  - reflexivity.
  - reflexivity.
  - split; [exact Heq|]. exists s'. split; [exact E|].
    split; [apply Hgone; by left|]. split; [apply Hgone; by right | exact Hcur].
Defined.

(** ** Capability handlers *)

(** X12: the echo results determine the message: different messages give
    different tool results, and different URIs or messages give different
    resource contents. *)
Theorem echo_injective (m1 m2 h1 h2 : string) :
  (echoTool m1 = echoTool m2 → m1 = m2)
  ∧ (echoResource h1 m1 = echoResource h2 m2 → h1 = h2 ∧ m1 = m2).
Proof.
  split.
  - intros H. cbv in H. congruence.
  - intros H. cbv in H. split; congruence.
Qed.

(** X13: ["echo"] is the only registered tool, and it answers exactly the
    inputs that carry a string [message]: any other name, a missing
    [message] or one that is not a string gives no result. *)
Theorem echo_tool_dispatch (name : string) (input : JSON) (r : ToolResult) :
  callTool name input = Some r
  ↔ name = "echo"
    ∧ ∃ message, field "message" input = Some (JStr message) ∧ r = echoTool message.
Proof.
  unfold callTool, registeredTools. simpl.
  destruct (decide ("echo" = name)) as [<-|Hne].
  - rewrite bool_decide_eq_true_2 by done. simpl. split.
    + intros H. split; [done|].
      destruct (field "message" input) as [[]|]; try discriminate.
      injection H as <-. eauto.
    + intros (_ & message & -> & ->). done.
  - rewrite bool_decide_eq_false_2 by done. simpl. split; [done|].
    intros [-> _]. done.
Qed.

(** ** Ending and re-opening a session *)

(** X14: in every state the server reaches, a DELETE for a registered
    identifier on which the transport closes returns, removes the entry and
    leaves the server without transport; the session of the transport the
    server held is removed with it, and no entry is added or redirected.
    From then on a GET or DELETE carrying the identifier is answered 404,
    unless the identifier names a member of [Object.prototype], in which
    case the handler throws. *)
Theorem delete_terminates_session (sdk : Sdk) (env : option string)
    (req : Request) (s : State) (sid : string) (t : TransportRef) (tr : Transport) :
  sdk_contract sdk →
  reachable sdk env s →
  method req = DELETE →
  session_header req = Some sid →
  streamable s !! sid = Some t →
  heap s !! t = Some tr →
  reaction sdk tr req None = Closes →
  ∃ s', app sdk env req s = Ok tt s'
    ∧ trace s' = (trace s ++ [HandleRequest t req None])%list
    ∧ streamable s' = closed_map s tr
    ∧ streamable s' !! sid = None
    ∧ current (server s') = None
    ∧ (∀ c held id, current (server s) = Some c → heap s !! c = Some held →
         t_sessionId held = Some id → streamable s' !! id = None)
    ∧ (∀ k x, streamable s' !! k = Some x → streamable s !! k = Some x)
    ∧ ∀ req', method req' = GET ∨ method req' = DELETE →
        session_header req' = Some sid →
        app sdk env req' s'
        = (if inherited sid then Thrown s'
           else Ok tt (emit (Send 404 "Invalid or missing session ID") s')).
Proof.
  intros Hc Hreach Hm Hh Hl Ht Hr.
  pose proof (reachable_consistent sdk env s Hreach) as [Hempty _ _ _].
  destruct (reachable_bound sdk env Hc s Hreach sid t Hl) as (tr' & Ht' & Hsid).
  assert (tr' = tr) as -> by congruence.
  assert (sid ≠ "") as Hne by (intros ->; congruence).
  unfold app. rewrite Hm.
  rewrite (handleSessionRequest_delegate sdk s req sid t Hh Hl Hne).
  rewrite (handleRequest_run _ _ _ _ _ _ Ht), Hr.
  destruct (onclose_run (emit (HandleRequest t req None) s) t tr Ht)
    as (s' & E & Hmap & _ & _ & Hcur & _ & Htr).
  { intros c. apply (reachable_held sdk env s c Hreach). }
  rewrite closed_map_emit in Hmap.
  assert (streamable s' !! sid = None) as Hgone.
  { rewrite Hmap. by apply closed_map_own. }
  exists s'. split; [done|]. split; [done|]. split; [done|]. split; [done|].
  split; [done|]. split; [|split].
  - intros c held id Hcs Hheld Hid. rewrite Hmap. by eapply closed_map_held.
  - intros k x. rewrite Hmap. apply closed_map_Some.
  - intros req' Hm' Hh'. destruct (inherited sid) eqn:Hi.
    + destruct Hm' as [-> | ->]; by apply handleSessionRequest_inherited with sid.
    + assert (lookup_transport (session_header req') s' = Undefined) as Hnone.
      { rewrite Hh'. by apply lookup_undefined. }
      destruct Hm' as [-> | ->]; apply handleSessionRequest_reject; by right.
Qed.

Lemma delete_terminates_session_witness :
  ∃ s', app Reference.sdk None (Reference.request DELETE (Some "abc") JNull)
          Reference.twoSessions = Ok tt s'
    ∧ streamable s' !! "abc" = None
    ∧ streamable s' !! "xyz" = None
    ∧ current (server s') = None
    ∧ app Reference.sdk None (Reference.request GET (Some "abc") JNull) s'
      = Ok tt (emit (Send 404 "Invalid or missing session ID") s').
Proof.
  destruct (delete_terminates_session Reference.sdk None
              (Reference.request DELETE (Some "abc") JNull) Reference.twoSessions
              "abc" 0 {| captured := Some "abc"; t_sessionId := Some "abc" |})
    as (s' & E & _ & _ & Hgone & Hcur & Hheld & _ & Hlater).
  - exact ReferenceFacts.reference_contract.
  - apply reach_request, reach_request, reach_initial.
  - reflexivity.
  - reflexivity.
  - vm_compute. reflexivity.
  - reflexivity.
  - reflexivity.
  - exists s'. split; [exact E|]. split; [exact Hgone|].
    split; [|split; [exact Hcur|]].
    + apply (Hheld 1 {| captured := Some "xyz"; t_sessionId := Some "xyz" |} "xyz");
        reflexivity.
    + apply (Hlater (Reference.request GET (Some "abc") JNull)); [by left | reflexivity].
Defined.

(** X15: in lenient mode a closed session can be opened again under its
    old identifier, when the identifier names no member of
    [Object.prototype]: after the close event of the registered transport,
    a POST carrying the identifier creates a new transport and, once that
    one is connected and completes the handshake, the identifier maps to
    the new transport, never to the closed one, and the server holds the
    new transport. The map is the one the close left, with that entry
    added. The handler returns when the payload is a handshake, and throws
    after the registration when the handshake is synthesized. *)
Theorem session_recreated_after_close (sdk : Sdk) (env : option string)
    (req : Request) (s : State) (sid : string) (t : TransportRef) :
  sdk_contract sdk →
  reachable sdk env s →
  streamable s !! sid = Some t →
  inherited sid = false →
  method req = POST →
  session_header req = Some sid →
  proper404Client env = false →
  connect_ok sdk {| connected := connected (server s); current := None |} = true →
  reaction sdk {| captured := Some sid; t_sessionId := None |} req
    (Some (if isInitializeRequest sdk (body req) then body req else synthesizedInitialize))
  = Initializes →
  ∃ s1 s2, onclose t s = Ok tt s1
    ∧ streamable s1 !! sid = None
    ∧ app sdk env req s1
      = (if isInitializeRequest sdk (body req) then Ok tt s2 else Thrown s2)
    ∧ streamable s2 = <[sid := length (heap s)]> (streamable s1)
    ∧ streamable s2 !! sid = Some (length (heap s))
    ∧ length (heap s) ≠ t
    ∧ size (streamable s2) = S (size (streamable s1))
    ∧ heap s2 !! length (heap s)
      = Some {| captured := Some sid; t_sessionId := Some sid |}
    ∧ (∀ k x, streamable s1 !! k = Some x → streamable s !! k = Some x).
Proof.
  intros Hc Hreach Hl Hi Hm Hh Hlenient Hok Hr.
  pose proof (reachable_consistent sdk env s Hreach) as [Hempty _ _ _].
  pose proof (reachable_bound sdk env Hc s Hreach) as Hb.
  destruct (Hb sid t Hl) as (tr & Ht & Hsid).
  assert (sid ≠ "") as Hne by (intros ->; congruence).
  destruct (onclose_run s t tr Ht) as (s1 & E1 & Hm1 & Hh1 & Hc1 & Hcu1 & _).
  { intros c. apply (reachable_held sdk env s c Hreach). }
  assert (streamable s1 !! sid = None) as Hl1.
  { rewrite Hm1. by apply closed_map_own. }
  assert (connect_ok sdk (server s1) = true) as Hok1.
  { destruct (server s1) as [c n]. simpl in *. by subst. }
  assert (generated sdk (session_header req) s1 = sid) as Hg
    by (rewrite Hh; by apply generated_supplied).
  assert (lookup_transport (session_header req) s1 = Undefined) as Hnone.
  { rewrite Hh. by apply lookup_undefined. }
  assert (length (heap s) ≠ t) as Hnew.
  { pose proof (bound_allocated s sid t Hb Hl). lia. }
  exists s1. rewrite <- Hh in Hr.
  destruct (setup_then_handshake sdk s1 req _ Hok1 Hr)
    as (s1' & s2 & Es & E2 & Hm2 & Hh2 & _).
  rewrite Hg, Hh1 in *.
  pose proof Hne as Htruthy. apply truthy_Some in Htruthy. rewrite Htruthy in Hm2.
  assert (heap s2 !! length (heap s)
          = Some {| captured := session_header req; t_sessionId := Some sid |}) as Hnewtr.
  { rewrite Hh2. apply fresh_lookup. }
  rewrite Hh in Hnewtr.
  assert (size (<[sid := length (heap s)]> (streamable s1)) = S (size (streamable s1)))
    as Hsize by (by apply map_size_insert_None).
  assert (∀ k x, streamable s1 !! k = Some x → streamable s !! k = Some x) as Hsub.
  { intros k x. rewrite Hm1. apply closed_map_Some. }
  unfold app. rewrite Hm, (post_bootstrap_lenient sdk env s1 req Hnone Hlenient).
  unfold bootstrap, bind. rewrite Es.
  destruct (isInitializeRequest sdk (body req)).
  - exists s2. rewrite E2, Hm2. split; [done|]. split; [done|]. split; [done|].
    split; [done|]. split; [apply lookup_insert_eq|]. done.
  - rewrite E2, handleRequest_written.
    eexists. split; [done|]. split; [done|]. split; [reflexivity|]. simpl.
    rewrite Hm2. split; [done|]. split; [apply lookup_insert_eq|]. done.
Qed.

Lemma session_recreated_after_close_witness :
  ∃ s1 s2, onclose 0 Reference.twoSessions = Ok tt s1
    ∧ streamable s1 !! "abc" = None
    ∧ app Reference.sdk None (Reference.request POST (Some "abc") Reference.listToolsBody) s1
      = Thrown s2
    ∧ streamable s2 = <[ "abc" := 2 ]> (streamable s1)
    ∧ streamable s2 !! "abc" = Some 2
    ∧ size (streamable s2) = S (size (streamable s1)).
Proof.
  destruct (session_recreated_after_close Reference.sdk None
              (Reference.request POST (Some "abc") Reference.listToolsBody)
              Reference.twoSessions "abc" 0)
    as (s1 & s2 & E1 & Hgone & E2 & Hmap & Hnew & _ & Hsize & _).
  - exact ReferenceFacts.reference_contract.
  - apply reach_request, reach_request, reach_initial.
  - vm_compute. reflexivity.
  - vm_compute. reflexivity.
  - reflexivity.
  - reflexivity.
  - reflexivity.
  - reflexivity.
  - reflexivity.
  - exists s1, s2. split; [exact E1|]. split; [exact Hgone|]. split; [exact E2|].
    split; [exact Hmap|]. split; [exact Hnew | exact Hsize].
Defined.

(** ** GET and DELETE with an ordinary identifier *)

(** X16: in every state the server reaches, a GET or DELETE whose session
    header is missing, empty, or has no entry and names no member of
    [Object.prototype] is answered 404 with body
    ["Invalid or missing session ID"] and changes nothing but the response;
    a GET or DELETE whose header has an entry is handed, without a parsed
    body, to the transport registered under it, and the handler returns. *)
Theorem session_request_routing (sdk : Sdk) (env : option string)
    (req : Request) (s : State) :
  sdk_contract sdk →
  reachable sdk env s →
  method req = GET ∨ method req = DELETE →
  (session_header req = None ∨ session_header req = Some ""
   ∨ (∃ sid, session_header req = Some sid ∧ streamable s !! sid = None
        ∧ inherited sid = false) →
   app sdk env req s = Ok tt (emit (Send 404 "Invalid or missing session ID") s))
  ∧ (∀ sid t, session_header req = Some sid → streamable s !! sid = Some t →
     app sdk env req s = handleRequest sdk t req Fresh None s
     ∧ trace (final (app sdk env req s)) = (trace s ++ [HandleRequest t req None])%list
     ∧ ∃ s', app sdk env req s = Ok tt s').
Proof.
  intros Hc Hreach Hm.
  assert (app sdk env req s = handleSessionRequest sdk req s) as ->.
  { unfold app. by destruct Hm as [-> | ->]. }
  split.
  - intros Hmiss. apply handleSessionRequest_reject.
    destruct Hmiss as [-> | [-> | (sid & -> & Hl & Hi)]]; [by left | by left |].
    right. by apply lookup_undefined.
  - intros sid t Hh Hl.
    assert (sid ≠ "") as Hne.
    { intros ->. pose proof (keys_truthy s (reachable_consistent sdk env s Hreach)).
      congruence. }
    rewrite (handleSessionRequest_delegate sdk s req sid t Hh Hl Hne).
    split; [done|]. split; [apply handleRequest_trace|].
    destruct (reachable_bound sdk env Hc s Hreach sid t Hl) as (tr & Ht & _).
    apply (handleRequest_returns sdk s t tr req None Ht).
    intros c. apply (reachable_held sdk env s c Hreach).
Qed.

Lemma session_request_routing_witness :
  app Reference.sdk None (Reference.request GET (Some "zz") JNull) Reference.oneSession
  = Ok tt (emit (Send 404 "Invalid or missing session ID") Reference.oneSession)
  ∧ trace (final (app Reference.sdk None (Reference.request DELETE (Some "abc") JNull)
                    Reference.twoSessions))
    = (trace Reference.twoSessions
       ++ [HandleRequest 0 (Reference.request DELETE (Some "abc") JNull) None])%list.
Proof.
  split.
  - apply (session_request_routing Reference.sdk None
             (Reference.request GET (Some "zz") JNull) Reference.oneSession).
    + exact ReferenceFacts.reference_contract.
    + apply reach_request, reach_initial.
    + by left.
    + right. right. exists "zz". split; [reflexivity|]. split; vm_compute; reflexivity.
  - destruct (session_request_routing Reference.sdk None
                (Reference.request DELETE (Some "abc") JNull) Reference.twoSessions)
      as [_ Hdelegate].
    + exact ReferenceFacts.reference_contract.
    + apply reach_request, reach_request, reach_initial.
    + by right.
    + destruct (Hdelegate "abc" 0) as (_ & Htrace & _);
        [reflexivity | vm_compute; reflexivity | exact Htrace].
Defined.
